(** * Profile scrapers: count normalizer, extractors and job orchestration

    Shallow embedding of [modal_scrapers/instagram.py] and
    [modal_scrapers/tiktok.py].  Each file holds one job function
    ([scrape_instagram_profile], [scrape_tiktok_profile]) that drives a
    browser, evaluates a JavaScript extractor on the loaded page and reports
    the outcome to a webhook.

    - JavaScript strings are sequences of UTF-16 code units ([jsstring]).
    - JavaScript numbers are IEEE 754 binary64 values, taken from the
      Standard Library's [SpecFloat] ([prec = 53], [emax = 1024]).
    - The Python job functions run in a small monad that threads the local
      variable [browser] and the trace of external calls, and that
      propagates exceptions the way [try]/[except]/[finally] does. *)

From Stdlib Require Import ZArith NArith List String Ascii Bool Lia.
From Stdlib Require Import Floats.SpecFloat.
Import ListNotations.

Local Open Scope Z_scope.

(** ** JavaScript strings *)

Module JS.

(** A UTF-16 code unit. *)
Definition char := N.

Definition jsstring := list char.

(** String literals of the source, read as code units (all are ASCII). *)
Definition js (s : string) : jsstring :=
  List.map N_of_ascii (list_ascii_of_string s).

Definition is_digit (c : char) : bool := ((48 <=? c) && (c <=? 57))%N.
Definition is_dot (c : char) : bool := (c =? 46)%N.
Definition is_comma (c : char) : bool := (c =? 44)%N.
(** [[KMB]] *)
Definition is_KMB (c : char) : bool := ((c =? 75) || (c =? 77) || (c =? 66))%N.

(** ECMAScript WhiteSpace and LineTerminator code points, all of which are
    single code units; [String.prototype.trim] removes them at both ends. *)
Definition is_space (c : char) : bool :=
  ((c =? 9) || (c =? 10) || (c =? 11) || (c =? 12) || (c =? 13) || (c =? 32)
   || (c =? 160) || (c =? 5760) || ((8192 <=? c) && (c <=? 8202))
   || (c =? 8232) || (c =? 8233) || (c =? 8239) || (c =? 8287)
   || (c =? 12288) || (c =? 65279))%N.

(** The longest prefix whose characters satisfy [p], and the rest. *)
Fixpoint span (p : char -> bool) (s : jsstring) : jsstring * jsstring :=
  match s with
  | [] => ([], [])
  | c :: s' =>
      if p c then let '(a, b) := span p s' in (c :: a, b) else ([], s)
  end.

Fixpoint drop_while (p : char -> bool) (s : jsstring) : jsstring :=
  match s with
  | [] => []
  | c :: s' => if p c then drop_while p s' else s
  end.

(** [s.trim()] *)
Definition trim (s : jsstring) : jsstring :=
  rev (drop_while is_space (rev (drop_while is_space s))).

Fixpoint starts_with (pre s : jsstring) : bool :=
  match pre, s with
  | [], _ => true
  | _ :: _, [] => false
  | a :: pre', b :: s' => (a =? b)%N && starts_with pre' s'
  end.

(** [s.includes(sub)] *)
Fixpoint includes (sub s : jsstring) : bool :=
  starts_with sub s ||
  match s with
  | [] => false
  | _ :: s' => includes sub s'
  end.

(** [a || b] on strings: the empty string is falsy. *)
Definition or_else (a b : jsstring) : jsstring :=
  match a with [] => b | _ => a end.

(** [x?.f || b] where [x?.f] is [undefined] when the node is absent. *)
Definition opt_or (a : option jsstring) (b : jsstring) : jsstring :=
  match a with
  | Some s => or_else s b
  | None => b
  end.

(** ** JavaScript numbers *)

Definition prec : Z := 53.
Definition emax : Z := 1024.

Definition number := spec_float.

Definition NaN : number := S754_nan.
Definition Infinity : number := S754_infinity false.

(** The Number value of an integer (round to nearest, ties to even). *)
Definition of_Z (n : Z) : number := binary_normalize prec emax n 0 false.

(** The Number value of the non-negative rational [n / d], [d > 0]:
    quotient carried to the working precision with the position of the
    remainder, then rounded to nearest, ties to even. *)
Definition of_ratio (n d : Z) : number :=
  match n with
  | Z0 => S754_zero false
  | _ =>
      let '(m, e, l) := SFdiv_core_binary prec emax n 0 d 0 in
      binary_round_aux prec emax false m e l
  end.

(** [x * y] *)
Definition mul (x y : number) : number := SFmul prec emax x y.

(** The integer a Number denotes, when it is finite and integral. *)
Definition to_Z (x : number) : option Z :=
  match x with
  | S754_zero _ => Some 0
  | S754_finite s m e =>
      let v := if s then Z.neg m else Z.pos m in
      if 0 <=? e then Some (v * 2 ^ e)
      else if v mod 2 ^ (- e) =? 0 then Some (v / 2 ^ (- e)) else None
  | _ => None
  end.

(** [Math.floor(x)].  The largest integer below a finite binary64 value is
    itself a binary64 value; [NaN], the infinities and the zeros are
    returned unchanged. *)
Definition Math_floor (x : number) : number :=
  match x with
  | S754_finite s m e =>
      if 0 <=? e then x
      else
        let v := if s then Z.neg m else Z.pos m in
        binary_normalize prec emax (v / 2 ^ (- e)) 0 s
  | _ => x
  end.

(** Decimal value of a run of digits. *)
Definition digit_val (c : char) : Z := Z.of_N c - 48.

Definition digits_val (ds : jsstring) : Z :=
  fold_left (fun acc c => 10 * acc + digit_val c) ds 0.

(** [parseFloat(s)] on the strings the scrapers pass to it, which hold
    digits and ['.'] only.  The longest prefix that is a decimal literal
    ([12], [12.], [12.5], [.5]) is converted; with no such prefix the
    result is [NaN].  Scanning stops at the first other character. *)
Definition parseFloat (s : jsstring) : number :=
  let '(ip, rest) := span is_digit s in
  let fp :=
    match rest with
    | c :: rest' => if is_dot c then fst (span is_digit rest') else []
    | [] => []
    end in
  match ip, fp with
  | [], [] => NaN
  | _, _ => of_ratio (digits_val (ip ++ fp)) (10 ^ Z.of_nat (List.length fp))
  end.

(** [s.replace(/,/g, '')] *)
Definition remove_commas (s : jsstring) : jsstring :=
  filter (fun c => negb (is_comma c)) s.

(** Leftmost match of [/(C+)([KMB]?)/] where [C] is the character class
    [cls]: the search starts at the first character of the class, the
    greedy [+] takes the whole run and the optional group takes the next
    character when it is one of [K], [M], [B].  The result is
    [(match[1], match[2])]. *)
Fixpoint regex_match (cls : char -> bool) (s : jsstring)
  : option (jsstring * jsstring) :=
  match s with
  | [] => None
  | c :: s' =>
      if cls c then
        let '(run, rest) := span cls s in
        Some (run, match rest with
                   | k :: _ => if is_KMB k then [k] else []
                   | [] => []
                   end)
      else regex_match cls s'
  end.

(** The tail shared by both helpers:
    [if (suffix === 'K') return Math.floor(num * 1000); ...] *)
Definition scale (num : number) (suffix : jsstring) : number :=
  match suffix with
  | [75%N] => Math_floor (mul num (of_Z 1000))
  | [77%N] => Math_floor (mul num (of_Z 1000000))
  | [66%N] => Math_floor (mul num (of_Z 1000000000))
  | _ => Math_floor num
  end.

End JS.

Import JS.

(** ** The count normalizer, one copy per scraper *)

Module Instagram.

(** [[\d,.]] *)
Definition count_class (c : char) : bool := is_digit c || is_comma c || is_dot c.

(** instagram.py, [parseCount] *)
Definition parseCount (text : jsstring) : number :=
  match text with
  | [] => of_Z 0
  | _ =>
      match regex_match count_class text with
      | None => of_Z 0
      | Some (m1, m2) =>
          let num := parseFloat (remove_commas m1) in
          scale num m2
      end
  end.

End Instagram.

Module TikTok.

(** [[^\d.KMB]] is the complement of this class. *)
Definition keep_class (c : char) : bool := is_digit c || is_dot c || is_KMB c.

(** [[\d.]] *)
Definition count_class (c : char) : bool := is_digit c || is_dot c.

(** tiktok.py, [parseCount] *)
Definition parseCount (text : jsstring) : number :=
  match text with
  | [] => of_Z 0
  | _ =>
      let cleaned := filter keep_class text in
      match regex_match count_class cleaned with
      | None => of_Z 0
      | Some (m1, m2) =>
          let num := parseFloat m1 in
          scale num m2
      end
  end.

End TikTok.

(** ** The reference algorithm of the specification

    A second definition that follows the five steps of the specification's
    count normalizer, to be compared with the two helpers above. *)

Module Reference.

(** Step 1: strip all characters except digits, ['.'], [','] and the
    letters [K], [M], [B]. *)
Definition allowed (c : char) : bool :=
  is_digit c || is_dot c || is_comma c || is_KMB c.

Definition strip (s : jsstring) : jsstring := filter allowed s.

(** Step 2: the leading numeric token: digits with optional thousands
    separators and at most one decimal point. *)
Fixpoint numeric_token (seen_dot : bool) (s : jsstring) : jsstring * jsstring :=
  match s with
  | [] => ([], [])
  | c :: s' =>
      if is_digit c || is_comma c then
        let '(tok, rest) := numeric_token seen_dot s' in (c :: tok, rest)
      else if is_dot c && negb seen_dot then
        let '(tok, rest) := numeric_token true s' in (c :: tok, rest)
      else ([], s)
  end.

(** ... followed by an optional single suffix letter. *)
Definition suffix_letter (rest : jsstring) : option char :=
  match rest with
  | k :: _ => if is_KMB k then Some k else None
  | [] => None
  end.

(** Step 4: the suffix multiplier.  With no suffix the multiplier is 1,
    which leaves a binary64 magnitude as it is. *)
Definition apply_multiplier (x : number) (suffix : option char) : number :=
  match suffix with
  | Some 75%N => mul x (of_Z 1000)
  | Some 77%N => mul x (of_Z 1000000)
  | Some 66%N => mul x (of_Z 1000000000)
  | _ => x
  end.

Definition normalizeCount (text : jsstring) : number :=
  let cleaned := strip text in
  let '(tok, rest) := numeric_token false cleaned in
  if existsb is_digit tok then
    (* steps 4 and 5 *)
    Math_floor
      (apply_multiplier (parseFloat (remove_commas tok)) (suffix_letter rest))
  else
    (* step 3: no numeric token *)
    of_Z 0.

End Reference.

(** ** The extractors (the scripts passed to [page.evaluate]) *)

(** What the Instagram script reads from the document: the result of each
    [querySelector] / [querySelectorAll] it issues. *)
Module InstagramPage.

Record dom := {
  (** [textContent] of each ['header section ul li'] *)
  stats_items : list jsstring;
  (** [textContent] of ['header h2'] *)
  header_h2 : option jsstring;
  (** [textContent] of ['header section div span'] *)
  header_section_div_span : option jsstring;
  (** is there an ['svg[aria-label="Verified"]'] *)
  verified_svg : bool;
  (** [textContent] of the first ['h2'] *)
  first_h2 : option jsstring;
  (** [src] of ['header img'] *)
  header_img_src : option jsstring;
  (** [textContent] of ['header section div div span'] *)
  header_section_div_div_span : option jsstring;
}.

Record data := {
  username : jsstring;
  fullName : jsstring;
  bio : jsstring;
  followers : number;
  following : number;
  posts : number;
  profilePicUrl : jsstring;
  isVerified : bool;
  isPrivate : bool;
  scrapedAt : jsstring;
}.

(** [x?.textContent?.trim() || ''] *)
Definition trimmed_text (node : option jsstring) : jsstring :=
  opt_or (option_map trim node) [].

Definition extract (d : dom) (now : jsstring) : data :=
  let stats := List.map (fun t => or_else (trim t) []) (stats_items d) in
  let username := trimmed_text (header_h2 d) in
  let bio := trimmed_text (header_section_div_span d) in
  let isVerified := verified_svg d in
  let isPrivate :=
    match first_h2 d with
    | Some t => includes (js "Private") t
    | None => false
    end in
  let profilePicUrl := opt_or (header_img_src d) [] in
  let fullName := trimmed_text (header_section_div_div_span d) in
  let posts := Instagram.parseCount (opt_or (nth_error stats 0) (js "0")) in
  let followers := Instagram.parseCount (opt_or (nth_error stats 1) (js "0")) in
  let following := Instagram.parseCount (opt_or (nth_error stats 2) (js "0")) in
  {| username := username;
     fullName := fullName;
     bio := bio;
     followers := followers;
     following := following;
     posts := posts;
     profilePicUrl := profilePicUrl;
     isVerified := isVerified;
     isPrivate := isPrivate;
     scrapedAt := now |}.

End InstagramPage.

Module TikTokPage.

(** An element found by one of the three statistics selectors. *)
Record stat_element := {
  (** [getAttribute('title')], [null] when the attribute is absent *)
  title_attr : option jsstring;
  text_content : jsstring;
}.

(** A ['[data-e2e="user-post-item"]'] element. *)
Record post_item := {
  (** [href] of the first ['a'] below the item *)
  anchor_href : option jsstring;
  (** [textContent] of ['[data-e2e="video-views"]'] below the item *)
  views_text : option jsstring;
}.

Record dom := {
  user_title : option jsstring;
  user_bio : option jsstring;
  (** [src] of ['[data-e2e="user-avatar"] img'] *)
  avatar_img_src : option jsstring;
  followersElement : option stat_element;
  followingElement : option stat_element;
  likesElement : option stat_element;
  verified_badge : bool;
  post_items : list post_item;
}.

Record video := {
  link : jsstring;
  views : number;
}.

Record data := {
  username : jsstring;
  bio : jsstring;
  avatar : jsstring;
  followers : number;
  following : number;
  likes : number;
  (** a [NodeList] length, kept as the natural number it is *)
  videos : nat;
  verified : bool;
  recentVideos : list video;
  scrapedAt : jsstring;
}.

(** [x?.textContent?.trim() || ''] *)
Definition trimmed_text (node : option jsstring) : jsstring :=
  opt_or (option_map trim node) [].

(** [el?.getAttribute('title') || el?.textContent || '0'] *)
Definition stat_text (el : option stat_element) : jsstring :=
  match el with
  | Some e => or_else (opt_or (title_attr e) (text_content e)) (js "0")
  | None => js "0"
  end.

Definition extract_video (item : post_item) : video :=
  let link := opt_or (anchor_href item) [] in
  let views := TikTok.parseCount (opt_or (views_text item) (js "0")) in
  {| link := link; views := views |}.

Definition extract (d : dom) (now : jsstring) : data :=
  let username := trimmed_text (user_title d) in
  let bio := trimmed_text (user_bio d) in
  let avatar := opt_or (avatar_img_src d) [] in
  let followers := TikTok.parseCount (stat_text (followersElement d)) in
  let following := TikTok.parseCount (stat_text (followingElement d)) in
  let likes := TikTok.parseCount (stat_text (likesElement d)) in
  let verified := verified_badge d in
  let videos := List.length (post_items d) in
  let recentVideos := List.map extract_video (firstn 12 (post_items d)) in
  {| username := username;
     bio := bio;
     avatar := avatar;
     followers := followers;
     following := following;
     likes := likes;
     videos := videos;
     verified := verified;
     recentVideos := recentVideos;
     scrapedAt := now |}.

End TikTokPage.

(** ** The job functions *)

Module Job.

(** A Python exception: its message ([str(e)]) and whether its class
    derives from [Exception] (what [except Exception] catches) or only from
    [BaseException] (cancellation, interpreter exit). *)
Record exn := {
  exn_message : string;
  exn_is_Exception : bool;
}.

Inductive outcome (A : Type) :=
| Ok (a : A)
| Raised (e : exn).
Arguments Ok {A} a.
Arguments Raised {A} e.

(** The arguments of a job function. *)
Record job := {
  job_username : string;
  job_id : string;
  job_webhook_url : string;
}.

Definition no_fault (f : option exn) : bool :=
  match f with None => true | Some _ => false end.

(** A fault that [except Exception] catches, or no fault. *)
Definition catchable (f : option exn) : bool :=
  match f with None => true | Some e => exn_is_Exception e end.

Definition raises {A} (r : outcome A) : bool :=
  match r with Raised _ => true | Ok _ => false end.

Definition catchable_outcome {A} (r : outcome A) : bool :=
  match r with Raised e => exn_is_Exception e | Ok _ => true end.

Section Orchestrator.

(** What differs between the two job functions. *)
Variable platform : string.
Variable profile_url : string -> string.
Variable ready_selector : string.
Context {dom data : Type}.
Variable extract : dom -> jsstring -> data.

(** The [json=] argument of [client.post]. *)
Inductive payload_body :=
| PData (d : data)
| PError (error_msg : string).

Record payload := {
  p_jobId : string;
  p_status : string;
  p_platform : string;
  p_body : payload_body;
}.

(** External calls, in the order they are issued. *)
Inductive event :=
| CallPlaywrightStart
| CallLaunch
| CallNewContext
| CallNewPage
| CallGoto (url : string) (timeout_ms : Z)
| CallWaitForSelector (selector : string) (timeout_ms : Z)
| CallEvaluate
| CallPost (url : string) (body : payload) (timeout_s : Z)
| CallClose
| CallPlaywrightStop.

(** How the outside world answers during one execution: the exception each
    call raises, if any, the document the page holds, the clock, and the
    answer of the webhook endpoint (a status code, or an exception raised
    by the [async with httpx.AsyncClient()] block around the request). *)
Record world := {
  w_playwright_start : option exn;
  w_launch : option exn;
  w_new_context : option exn;
  w_new_page : option exn;
  w_goto : option exn;
  w_wait_for_selector : option exn;
  w_evaluate : option exn;
  w_dom : dom;
  w_now : jsstring;
  w_post : payload -> outcome Z;
  w_close : option exn;
  w_playwright_stop : option exn;
}.

(** The handle [p.chromium.launch] returns; it is truthy. *)
Inductive Browser := BrowserHandle.

(** The local variable [browser] and the calls issued so far. *)
Record state := {
  browser : option Browser;
  trace : list event;
}.

Definition M (A : Type) : Type := state -> state * outcome A.

Definition ret {A} (a : A) : M A := fun s => (s, Ok a).

Definition raise {A} (e : exn) : M A := fun s => (s, Raised e).

Definition bind {A B} (m : M A) (k : A -> M B) : M B :=
  fun s =>
    match m s with
    | (s', Ok a) => k a s'
    | (s', Raised e) => (s', Raised e)
    end.

Notation "x <- m ;; k" := (bind m (fun x => k))
  (at level 61, m at next level, right associativity).
Notation "m ;; k" := (bind m (fun _ => k))
  (at level 61, right associativity).

(** [try: body except Exception as e: handler e] *)
Definition try_except {A} (body : M A) (handler : exn -> M A) : M A :=
  fun s =>
    match body s with
    | (s', Ok a) => (s', Ok a)
    | (s', Raised e) =>
        if exn_is_Exception e then handler e s' else (s', Raised e)
    end.

(** [try: body finally: cleanup]; an exception of [cleanup] replaces the
    outcome of [body]. *)
Definition try_finally {A} (body : M A) (cleanup : M unit) : M A :=
  fun s =>
    let '(s', r) := body s in
    match cleanup s' with
    | (s'', Ok _) => (s'', r)
    | (s'', Raised e) => (s'', Raised e)
    end.

Definition log (ev : event) : M unit :=
  fun s => ({| browser := browser s; trace := trace s ++ [ev] |}, Ok tt).

Definition set_browser (b : option Browser) : M unit :=
  fun s => ({| browser := b; trace := trace s |}, Ok tt).

Definition get_browser : M (option Browser) :=
  fun s => (s, Ok (browser s)).

(** An external call that returns nothing of interest. *)
Definition call (ev : event) (fault : option exn) : M unit :=
  log ev ;;
  match fault with
  | Some e => raise e
  | None => ret tt
  end.

Section Run.

Variable w : world.
Variable j : job.

Definition success_payload (d : data) : payload :=
  {| p_jobId := job_id j;
     p_status := "completed";
     p_platform := platform;
     p_body := PData d |}.

Definition failure_payload (error_msg : string) : payload :=
  {| p_jobId := job_id j;
     p_status := "failed";
     p_platform := platform;
     p_body := PError error_msg |}.

(** [async with httpx.AsyncClient() as client:
       await client.post(webhook_url, json=body, timeout=30.0)] *)
Definition post (body : payload) : M Z :=
  log (CallPost (job_webhook_url j) body 30) ;;
  match w_post w body with
  | Ok status => ret status
  | Raised e => raise e
  end.

(** The body of the [try] block. *)
Definition attempt : M data :=
  call CallLaunch (w_launch w) ;;
  set_browser (Some BrowserHandle) ;;
  call CallNewContext (w_new_context w) ;;
  call CallNewPage (w_new_page w) ;;
  let url := profile_url (job_username j) in
  call (CallGoto url 30000) (w_goto w) ;;
  call (CallWaitForSelector ready_selector 15000) (w_wait_for_selector w) ;;
  call CallEvaluate (w_evaluate w) ;;
  let d := extract (w_dom w) (w_now w) in
  _ <- post (success_payload d) ;;
  ret d.

(** The [except Exception as e] block. *)
Definition report_failure (e : exn) : M data :=
  let error_msg := exn_message e in
  try_except (_ <- post (failure_payload error_msg) ;; ret tt)
             (fun webhook_error => ret tt) ;;
  raise e.

(** The [finally] block: [if browser: await browser.close()] *)
Definition release : M unit :=
  b <- get_browser ;;
  match b with
  | Some _ => call CallClose (w_close w)
  | None => ret tt
  end.

(** The whole job function. *)
Definition scrape_profile : M data :=
  call CallPlaywrightStart (w_playwright_start w) ;;
  try_finally
    (set_browser None ;;
     try_finally (try_except attempt report_failure) release)
    (call CallPlaywrightStop (w_playwright_stop w)).

Definition initial : state := {| browser := None; trace := [] |}.

(** The calls issued by one execution and what the invoker observes. *)
Definition run : list event * outcome data :=
  let '(s, r) := scrape_profile initial in (trace s, r).

End Run.

(** Observations on a trace. *)
Definition is_post (ev : event) : bool :=
  match ev with CallPost _ _ _ => true | _ => false end.

Definition is_close (ev : event) : bool :=
  match ev with CallClose => true | _ => false end.

Definition webhook_calls (t : list event) : nat :=
  List.length (filter is_post t).

Definition close_calls (t : list event) : nat :=
  List.length (filter is_close t).

(** The bodies posted to the webhook, in order. *)
Fixpoint posted (t : list event) : list (string * payload) :=
  match t with
  | [] => []
  | CallPost url body _ :: t' => (url, body) :: posted t'
  | _ :: t' => posted t'
  end.

(** ** Conditions on a world, used to state the facts below *)

(** The record the extractor yields in world [w]. *)
Definition extracted (w : world) : data := extract (w_dom w) (w_now w).

(** Every call up to and including [page.evaluate] returned. *)
Definition page_extracted (w : world) : bool :=
  no_fault (w_launch w) && no_fault (w_new_context w)
  && no_fault (w_new_page w) && no_fault (w_goto w)
  && no_fault (w_wait_for_selector w) && no_fault (w_evaluate w).

(** Every fault of the [try] block derives from [Exception]. *)
Definition faults_catchable (w : world) (j : job) : bool :=
  catchable (w_launch w) && catchable (w_new_context w)
  && catchable (w_new_page w) && catchable (w_goto w)
  && catchable (w_wait_for_selector w) && catchable (w_evaluate w)
  && catchable_outcome (w_post w (success_payload j (extracted w))).

(** The browser was launched. *)
Definition launched (w : world) : bool :=
  no_fault (w_playwright_start w) && no_fault (w_launch w).

(** [browser.close()] and the exit of [async with async_playwright()]
    return. *)
Definition teardown_ok (w : world) : bool :=
  no_fault (w_close w) && no_fault (w_playwright_stop w).

End Orchestrator.

Arguments world : clear implicits.
Arguments event : clear implicits.
Arguments payload : clear implicits.
Arguments M : clear implicits.

End Job.

Import Job.

Definition double_quote : string := String "034"%char EmptyString.

Definition instagram_url (username : string) : string :=
  ("https://www.instagram.com/" ++ username ++ "/")%string.

Definition tiktok_url (username : string) : string :=
  ("https://www.tiktok.com/@" ++ username)%string.

(** ['[data-e2e="user-page"]'] *)
Definition tiktok_ready_selector : string :=
  ("[data-e2e=" ++ double_quote ++ "user-page" ++ double_quote ++ "]")%string.

(** instagram.py, [scrape_instagram_profile] *)
Definition scrape_instagram_profile :=
  run "Instagram" instagram_url "header" InstagramPage.extract.

(** tiktok.py, [scrape_tiktok_profile] *)
Definition scrape_tiktok_profile :=
  run "TikTok" tiktok_url tiktok_ready_selector TikTokPage.extract.

(** ** Inputs on which the helpers and the reference algorithm agree *)

(** No digit, ['.'], [','], [K], [M] or [B]. *)
Definition plain (s : jsstring) : bool :=
  forallb (fun c => negb (Reference.allowed c)) s.

(** A run of digits, commas and dots that is not made of commas only. *)
Definition numeric_run (run : jsstring) : bool :=
  forallb Instagram.count_class run
  && existsb (fun c => negb (is_comma c)) run.


(** What may follow the number: nothing, a suffix letter and then anything,
    or plain text. *)
Definition tail_ok (rest : jsstring) : bool :=
  match rest with
  | [] => true
  | k :: _ => is_KMB k || plain rest
  end.

(** [match[2]] for a run followed by [rest]. *)
Definition suffix_of (rest : jsstring) : jsstring :=
  match rest with
  | k :: _ => if is_KMB k then [k] else []
  | [] => []
  end.

(** ** What each extractor promises for absent nodes *)

Definition instagram_defaults (d : InstagramPage.dom) (r : InstagramPage.data)
  : Prop :=
  (InstagramPage.header_h2 d = None -> InstagramPage.username r = [])
  /\ (InstagramPage.header_section_div_div_span d = None ->
      InstagramPage.fullName r = [])
  /\ (InstagramPage.header_section_div_span d = None ->
      InstagramPage.bio r = [])
  /\ (InstagramPage.header_img_src d = None ->
      InstagramPage.profilePicUrl r = [])
  /\ (InstagramPage.verified_svg d = false ->
      InstagramPage.isVerified r = false)
  /\ (InstagramPage.first_h2 d = None -> InstagramPage.isPrivate r = false)
  /\ (nth_error (InstagramPage.stats_items d) 0 = None ->
      InstagramPage.posts r = of_Z 0)
  /\ (nth_error (InstagramPage.stats_items d) 1 = None ->
      InstagramPage.followers r = of_Z 0)
  /\ (nth_error (InstagramPage.stats_items d) 2 = None ->
      InstagramPage.following r = of_Z 0).

Definition tiktok_defaults (d : TikTokPage.dom) (r : TikTokPage.data) : Prop :=
  (TikTokPage.user_title d = None -> TikTokPage.username r = [])
  /\ (TikTokPage.user_bio d = None -> TikTokPage.bio r = [])
  /\ (TikTokPage.avatar_img_src d = None -> TikTokPage.avatar r = [])
  /\ (TikTokPage.followersElement d = None ->
      TikTokPage.followers r = of_Z 0)
  /\ (TikTokPage.followingElement d = None ->
      TikTokPage.following r = of_Z 0)
  /\ (TikTokPage.likesElement d = None -> TikTokPage.likes r = of_Z 0)
  /\ (TikTokPage.verified_badge d = false -> TikTokPage.verified r = false)
  /\ (TikTokPage.post_items d = [] ->
      TikTokPage.videos r = 0%nat /\ TikTokPage.recentVideos r = []).

(** A recent-video entry read off one post item, with its defaults. *)
Definition video_of_item (item : TikTokPage.post_item) (v : TikTokPage.video)
  : Prop :=
  TikTokPage.link v
  = match TikTokPage.anchor_href item with Some h => h | None => [] end
  /\ TikTokPage.views v
     = match TikTokPage.views_text item with
       | Some t => TikTok.parseCount (or_else t (js "0"))
       | None => of_Z 0
       end.

(** ** Concrete jobs, pages and worlds *)

Module Fixtures.

(** The job of the scrapers' local test. *)
Definition nike : job :=
  {| job_username := "nike";
     job_id := "test-123";
     job_webhook_url := "https://httpbin.org/post" |}.

Definition navigation_timeout : exn :=
  {| exn_message := "Timeout 30000ms exceeded.";
     exn_is_Exception := true |}.

Definition connect_error : exn :=
  {| exn_message := "All connection attempts failed";
     exn_is_Exception := true |}.

Definition the_clock : jsstring := js "2024-01-01T00:00:00.000Z".

(** A profile page without bio and avatar nodes. *)
Definition instagram_page : InstagramPage.dom :=
  {| InstagramPage.stats_items :=
       [js "100 posts"; js "10M followers"; js "50 following"];
     InstagramPage.header_h2 := Some (js "nike");
     InstagramPage.header_section_div_span := None;
     InstagramPage.verified_svg := true;
     InstagramPage.first_h2 := Some (js "nike");
     InstagramPage.header_img_src := None;
     InstagramPage.header_section_div_div_span := None |}.

(** A profile page without bio and avatar nodes and with two posts, the
    second of which has neither link nor view count. *)
Definition tiktok_page : TikTokPage.dom :=
  {| TikTokPage.user_title := Some (js "nike");
     TikTokPage.user_bio := None;
     TikTokPage.avatar_img_src := None;
     TikTokPage.followersElement :=
       Some {| TikTokPage.title_attr := None;
               TikTokPage.text_content := js "6.1M" |};
     TikTokPage.followingElement := None;
     TikTokPage.likesElement :=
       Some {| TikTokPage.title_attr := Some (js "Likes");
               TikTokPage.text_content := js "45.2M" |};
     TikTokPage.verified_badge := true;
     TikTokPage.post_items :=
       [ {| TikTokPage.anchor_href :=
              Some (js "https://www.tiktok.com/@nike/video/1");
            TikTokPage.views_text := Some (js "12.3K") |};
         {| TikTokPage.anchor_href := None;
            TikTokPage.views_text := None |} ] |}.

Section Worlds.

Context {dom data : Type}.
Variable page : dom.

(** Every call returns and the endpoint answers 200. *)
Definition calm : world dom data :=
  {| w_playwright_start := None;
     w_launch := None;
     w_new_context := None;
     w_new_page := None;
     w_goto := None;
     w_wait_for_selector := None;
     w_evaluate := None;
     w_dom := page;
     w_now := the_clock;
     w_post := fun _ => Ok 200;
     w_close := None;
     w_playwright_stop := None |}.

(** The endpoint cannot be reached when the success payload is posted and
    answers the failure payload. *)
Definition success_post_fails : world dom data :=
  {| w_playwright_start := None;
     w_launch := None;
     w_new_context := None;
     w_new_page := None;
     w_goto := None;
     w_wait_for_selector := None;
     w_evaluate := None;
     w_dom := page;
     w_now := the_clock;
     w_post := fun body =>
       match p_body body with
       | PData _ => Raised connect_error
       | PError _ => Ok 200
       end;
     w_close := None;
     w_playwright_stop := None |}.

(** Navigation times out and the endpoint cannot be reached at all. *)
Definition goto_times_out_endpoint_down : world dom data :=
  {| w_playwright_start := None;
     w_launch := None;
     w_new_context := None;
     w_new_page := None;
     w_goto := Some navigation_timeout;
     w_wait_for_selector := None;
     w_evaluate := None;
     w_dom := page;
     w_now := the_clock;
     w_post := fun _ => Raised connect_error;
     w_close := None;
     w_playwright_stop := None |}.

End Worlds.

End Fixtures.

(** ** Inputs on which each helper follows the reference algorithm *)



(** ** Shapes of results and of tokens *)

(** [s] starts with a decimal literal: a digit, or ['.'] and a digit. *)
Definition has_literal (s : jsstring) : bool :=
  match s with
  | c :: s' =>
      is_digit c
      || (is_dot c && match s' with c' :: _ => is_digit c' | [] => false end)
  | [] => false
  end.

(** Digits and thousands separators only, with at least one digit. *)
Definition integer_token (tok : jsstring) : bool :=
  forallb (fun c => is_digit c || is_comma c) tok && existsb is_digit tok.

(** The factor the helpers apply for the character that follows the run. *)
Definition multiplier_of (rest : jsstring) : Z :=
  match rest with
  | 75%N :: _ => 1000
  | 77%N :: _ => 1000000
  | 66%N :: _ => 1000000000
  | _ => 1
  end.

(** A Number that is [NaN], [+Infinity] or a non-negative integer. *)
Definition count_like (x : number) : Prop :=
  x = NaN \/ x = Infinity \/ exists n : Z, 0 <= n /\ to_Z x = Some n.

(** Neither the first nor the last character is white space. *)
Definition is_trimmed (s : jsstring) : bool :=
  match s with [] => true | c :: _ => negb (is_space c) end
  && match rev s with [] => true | c :: _ => negb (is_space c) end.

(** A Number that is [NaN] or carries no minus sign. *)
Definition pos_shape (x : number) : Prop :=
  x = NaN \/ x = S754_zero false \/ x = Infinity
  \/ exists m e, x = S754_finite false m e.

(** [x] stores the non-negative integer [v] exactly. *)
Definition holds_integer (x : number) (v : Z) : Prop :=
  (x = S754_zero false /\ v = 0)
  \/ exists m e, x = S754_finite false m e /\ e <= 0
                 /\ Zpos m = v * 2 ^ (- e).

(** [field] is the text of [node] without the white space around it, and
    the empty string when there is no node. *)
Definition trimmed_from (node : option jsstring) (field : jsstring) : Prop :=
  is_trimmed field = true
  /\ match node with
     | None => field = []
     | Some t =>
         exists a b, t = a ++ field ++ b
                     /\ forallb is_space a = true
                     /\ forallb is_space b = true
     end.

(** ** Further observations on an execution *)

Section Observations.

Context {dom data : Type}.

(** The calls that set the session up and read the page. *)
Definition is_setup (ev : event data) : bool :=
  match ev with
  | CallPlaywrightStart | CallLaunch | CallNewContext | CallNewPage
  | CallGoto _ _ | CallWaitForSelector _ _ | CallEvaluate => true
  | _ => false
  end.

Definition setup_calls (t : list (event data)) : list (event data) :=
  filter is_setup t.

(** The [status] fields of the payloads posted, in order. *)
Definition statuses (t : list (event data)) : list string :=
  List.map (fun p => p_status (snd p)) (posted t).

(** The setup calls of a job, in program order. *)
Definition setup_sequence (profile_url : string -> string)
    (ready_selector : string) (j : job) : list (event data) :=
  [CallPlaywrightStart; CallLaunch; CallNewContext; CallNewPage;
   CallGoto (profile_url (job_username j)) 30000;
   CallWaitForSelector ready_selector 15000;
   CallEvaluate].

(** How many setup calls are issued in world [w]: every call up to and
    including the first one that raises. *)
Definition setup_reached (w : world dom data) : nat :=
  match w_playwright_start w with Some _ => 1 | None =>
  match w_launch w with Some _ => 2 | None =>
  match w_new_context w with Some _ => 3 | None =>
  match w_new_page w with Some _ => 4 | None =>
  match w_goto w with Some _ => 5 | None =>
  match w_wait_for_selector w with Some _ => 6 | None => 7
  end end end end end end.

(** A payload as either job function builds it. *)
Definition well_formed_post (platform : string) (j : job)
    (p : string * payload data) : Prop :=
  fst p = job_webhook_url j
  /\ p_jobId (snd p) = job_id j
  /\ p_platform (snd p) = platform
  /\ ((p_status (snd p) = "completed"%string
       /\ exists d, p_body (snd p) = PData d)
      \/ (p_status (snd p) = "failed"%string
          /\ exists msg, p_body (snd p) = PError msg)).

End Observations.

Module MoreFixtures.

(** A cancellation: derives from [BaseException] only. *)
Definition cancelled : exn :=
  {| exn_message := "";
     exn_is_Exception := false |}.

Definition target_closed : exn :=
  {| exn_message := "Target page, context or browser has been closed";
     exn_is_Exception := true |}.

Section Worlds.

Context {dom data : Type}.
Variable page : dom.

(** The job is cancelled while it waits for the readiness selector. *)
Definition cancelled_while_waiting : world dom data :=
  {| w_playwright_start := None;
     w_launch := None;
     w_new_context := None;
     w_new_page := None;
     w_goto := None;
     w_wait_for_selector := Some cancelled;
     w_evaluate := None;
     w_dom := page;
     w_now := Fixtures.the_clock;
     w_post := fun _ => Ok 200;
     w_close := None;
     w_playwright_stop := None |}.

(** Everything returns except [browser.close()]. *)
Definition close_fails : world dom data :=
  {| w_playwright_start := None;
     w_launch := None;
     w_new_context := None;
     w_new_page := None;
     w_goto := None;
     w_wait_for_selector := None;
     w_evaluate := None;
     w_dom := page;
     w_now := Fixtures.the_clock;
     w_post := fun _ => Ok 200;
     w_close := Some target_closed;
     w_playwright_stop := None |}.

(** Playwright itself cannot be started. *)
Definition playwright_missing : world dom data :=
  {| w_playwright_start := Some target_closed;
     w_launch := None;
     w_new_context := None;
     w_new_page := None;
     w_goto := None;
     w_wait_for_selector := None;
     w_evaluate := None;
     w_dom := page;
     w_now := Fixtures.the_clock;
     w_post := fun _ => Ok 200;
     w_close := None;
     w_playwright_stop := None |}.

End Worlds.

End MoreFixtures.

Module FaultFixtures.

Section Worlds.

Context {dom data : Type}.
Variable page : dom.



End Worlds.

End FaultFixtures.

(** * Facts about the job functions *)

Section JobFacts.

Variable platform : string.
Variable profile_url : string -> string.
Variable ready_selector : string.
Context {dom data : Type}.
Variable extract : dom -> jsstring -> data.

Local Abbreviation world := (Job.world dom data).
Local Abbreviation run := (Job.run platform profile_url ready_selector extract).
Local Abbreviation attempt :=
  (Job.attempt platform profile_url ready_selector extract).
Local Abbreviation success_payload := (Job.success_payload platform (data := data)).
Local Abbreviation failure_payload := (Job.failure_payload platform (data := data)).
Local Abbreviation extracted := (Job.extracted extract).
Local Abbreviation faults_catchable := (Job.faults_catchable platform extract).

Ltac unfold_job :=
  unfold Job.run, scrape_profile, Job.attempt, report_failure,
    release, post, call, log, set_browser, get_browser,
    try_finally, try_except, bind, ret, raise, initial,
    webhook_calls, close_calls in *.

Ltac split_world :=
  repeat match goal with
    | |- context [match ?x with _ => _ end] =>
        match type of x with
        | option exn => destruct x eqn:?
        | outcome _ => destruct x eqn:?
        | bool => destruct x eqn:?
        end; cbn in *
    end.

Ltac job_cases := unfold_job; cbn in *; split_world; cbn in *.

Lemma webhook_calls_run (w : world) (j : job) :
  w_playwright_start w = None ->
  faults_catchable w j = true ->
  webhook_calls (fst (run w j)) =
    if page_extracted w && raises (w_post w (success_payload j (extracted w)))
    then 2%nat else 1%nat.
Proof.
  unfold Job.faults_catchable, page_extracted, Job.extracted.
  intros Hs Hc. job_cases; rewrite ?Hs in *; cbn in *;
    try reflexivity; try discriminate.
Qed.

Lemma webhook_calls_le_2 (w : world) (j : job) :
  (webhook_calls (fst (run w j)) <= 2)%nat.
Proof. job_cases; lia. Qed.

Lemma close_calls_run (w : world) (j : job) :
  close_calls (fst (run w j)) = if launched w then 1%nat else 0%nat.
Proof. unfold launched. job_cases; reflexivity. Qed.

(** The [finally] block with [browser] still [None]. *)
Lemma release_without_browser (w : world) (t : list (event data)) :
  release w {| browser := None; trace := t |}
  = ({| browser := None; trace := t |}, Ok tt).
Proof. reflexivity. Qed.


(** [attempt] never touches the events already in the trace, and its
    outcome does not depend on the state it starts from. *)
Lemma attempt_outcome (w : world) (j : job) (s s' : state) :
  snd (attempt w j s) = snd (attempt w j s').
Proof. job_cases; reflexivity. Qed.

Lemma attempt_posted (w : world) (j : job) (s : state) :
  posted (trace (fst (attempt w j s)))
  = posted (trace s) ++ posted (trace (fst (attempt w j initial))).
Proof.
  job_cases;
    repeat (rewrite <- ?app_assoc; cbn);
    repeat match goal with
      | |- context [posted (?a ++ ?b)] =>
          let H := fresh in
          assert (H : forall x y : list (event data),
                     posted (x ++ y) = posted x ++ posted y)
            by (clear; intros x y; induction x as [|[] x IH]; cbn;
                rewrite ?IH; reflexivity);
          rewrite !H; clear H
      end; cbn; rewrite ?app_nil_r; reflexivity.
Qed.


Lemma delivered_job (w : world) (j : job) (status : Z) :
  w_playwright_start w = None ->
  page_extracted w = true ->
  w_post w (success_payload j (extracted w)) = Ok status ->
  teardown_ok w = true ->
  snd (run w j) = Ok (extracted w)
  /\ posted (fst (run w j))
     = [(job_webhook_url j, success_payload j (extracted w))].
Proof.
  unfold page_extracted, teardown_ok, Job.extracted.
  intros Hs Hp Hw Ht.
  job_cases; rewrite ?Hs, ?andb_false_r in *; cbn in *;
    try discriminate; try congruence; split; reflexivity.
Qed.

Lemma undelivered_job (w : world) (j : job) (e : exn) :
  w_playwright_start w = None ->
  page_extracted w = true ->
  w_post w (success_payload j (extracted w)) = Raised e ->
  exn_is_Exception e = true ->
  catchable_outcome (w_post w (failure_payload j (exn_message e))) = true ->
  teardown_ok w = true ->
  snd (run w j) = Raised e
  /\ posted (fst (run w j))
     = [(job_webhook_url j, success_payload j (extracted w));
        (job_webhook_url j, failure_payload j (exn_message e))].
Proof.
  unfold page_extracted, teardown_ok, Job.extracted.
  intros Hs Hp Hw He Hc Ht.
  job_cases; rewrite ?Hs, ?andb_false_r in *; cbn in *;
    try discriminate;
    repeat match goal with
      | H : Raised _ = Raised _ |- _ => inversion H; subst; clear H
      | H : ?x = Raised _, H' : context [?x] |- _ => rewrite H in H'; cbn in H'
      | H : ?x = Ok _, H' : context [?x] |- _ => rewrite H in H'; cbn in H'
      end;
    try discriminate; try congruence; split; reflexivity.
Qed.

End JobFacts.

(** * The claims about job execution *)

Local Abbreviation ig_world := (world InstagramPage.dom InstagramPage.data).
Local Abbreviation tt_world := (world TikTokPage.dom TikTokPage.data).
Local Abbreviation ig_success := (success_payload "Instagram").
Local Abbreviation tt_success := (success_payload "TikTok").
Local Abbreviation ig_extracted := (extracted InstagramPage.extract).
Local Abbreviation tt_extracted := (extracted TikTokPage.extract).

(** C1, at an execution in which the page was scraped and the POST of the
    success payload raises: the [except] block posts the failure payload
    as well, so this execution issues two webhook calls, with statuses
    "completed" and then "failed". *)
Lemma C1_two_webhook_calls :
  webhook_calls
    (fst (scrape_instagram_profile
            (Fixtures.success_post_fails Fixtures.instagram_page)
            Fixtures.nike)) = 2%nat
  /\ List.map (fun p => p_status (snd p))
       (posted (fst (scrape_instagram_profile
                       (Fixtures.success_post_fails Fixtures.instagram_page)
                       Fixtures.nike)))
     = ["completed"; "failed"]%string.
Proof. split; reflexivity. Qed.

(** The number of webhook POSTs, path by path: in an execution where
    Playwright starts and every fault of the [try] block is an
    [Exception], each job function issues one webhook POST, except when
    the page was scraped and the POST of the success payload itself
    raises: then the failure payload is posted too. *)
Theorem webhook_calls_by_path (j : job) :
  (forall w : ig_world,
      w_playwright_start w = None ->
      faults_catchable "Instagram" InstagramPage.extract w j = true ->
      webhook_calls (fst (scrape_instagram_profile w j))
      = if page_extracted w && raises (w_post w (ig_success j (ig_extracted w)))
        then 2%nat else 1%nat)
  /\ (forall w : tt_world,
      w_playwright_start w = None ->
      faults_catchable "TikTok" TikTokPage.extract w j = true ->
      webhook_calls (fst (scrape_tiktok_profile w j))
      = if page_extracted w && raises (w_post w (tt_success j (tt_extracted w)))
        then 2%nat else 1%nat).
Proof.
  split; intros w Hs Hc; now apply webhook_calls_run.
Qed.

Lemma webhook_calls_by_path_example :
  webhook_calls
    (fst (scrape_instagram_profile (Fixtures.calm Fixtures.instagram_page)
            Fixtures.nike)) = 1%nat
  /\ webhook_calls
       (fst (scrape_tiktok_profile
               (Fixtures.goto_times_out_endpoint_down Fixtures.tiktok_page)
               Fixtures.nike)) = 1%nat.
Proof.
  split.
  - apply (proj1 (webhook_calls_by_path Fixtures.nike)
             (Fixtures.calm Fixtures.instagram_page)); reflexivity.
  - apply (proj2 (webhook_calls_by_path Fixtures.nike)
             (Fixtures.goto_times_out_endpoint_down Fixtures.tiktok_page));
      reflexivity.
Defined.

(** C3: in every execution of either job function, [browser.close()] is
    called exactly once when a browser was launched, whatever happens
    afterwards (success, navigation or selector timeout, extraction fault,
    webhook fault, uncaught exception), and is not called at all when no
    browser was launched, in which case the [finally] block does nothing
    and raises nothing. *)
Theorem C3_browser_closed_once :
  (forall (w : ig_world) (j : job),
      close_calls (fst (scrape_instagram_profile w j))
      = if launched w then 1%nat else 0%nat)
  /\ (forall (w : tt_world) (j : job),
      close_calls (fst (scrape_tiktok_profile w j))
      = if launched w then 1%nat else 0%nat)
  /\ (forall (dom data : Type) (w : world dom data) (t : list (event data)),
      release w {| browser := None; trace := t |}
      = ({| browser := None; trace := t |}, Ok tt)).
Proof.
  split; [|split]; intros.
  - apply close_calls_run.
  - apply close_calls_run.
  - reflexivity.
Qed.




(** C5, at an execution in which the page was scraped and only the POST
    of the success payload raises: the invocation does not return the
    extracted record, it raises the delivery error. *)
Lemma C5_success_post_failure_fails_job :
  page_extracted
    (Fixtures.success_post_fails Fixtures.instagram_page : ig_world) = true
  /\ snd (scrape_instagram_profile
            (Fixtures.success_post_fails Fixtures.instagram_page)
            Fixtures.nike) = Raised Fixtures.connect_error
  /\ snd (scrape_instagram_profile
            (Fixtures.success_post_fails Fixtures.instagram_page)
            Fixtures.nike)
     <> Ok (InstagramPage.extract Fixtures.instagram_page Fixtures.the_clock).
Proof. repeat split; try reflexivity; discriminate. Qed.

(** What follows the extraction, with a teardown that returns: the
    invocation returns the extracted record whenever the POST of the
    success payload returns, whatever the response status; when that POST
    raises an [Exception], the failure payload carrying the delivery
    error's message is posted and the delivery error is raised to the
    invoker. *)
Theorem success_delivery_paths (j : job) :
  (forall w : ig_world,
      w_playwright_start w = None ->
      page_extracted w = true ->
      teardown_ok w = true ->
      match w_post w (ig_success j (ig_extracted w)) with
      | Ok _ => snd (scrape_instagram_profile w j) = Ok (ig_extracted w)
      | Raised e =>
          exn_is_Exception e = true ->
          catchable_outcome
            (w_post w (failure_payload "Instagram" j (exn_message e))) = true ->
          snd (scrape_instagram_profile w j) = Raised e
          /\ posted (fst (scrape_instagram_profile w j))
             = [(job_webhook_url j, ig_success j (ig_extracted w));
                (job_webhook_url j,
                 failure_payload "Instagram" j (exn_message e))]
      end)
  /\ (forall w : tt_world,
      w_playwright_start w = None ->
      page_extracted w = true ->
      teardown_ok w = true ->
      match w_post w (tt_success j (tt_extracted w)) with
      | Ok _ => snd (scrape_tiktok_profile w j) = Ok (tt_extracted w)
      | Raised e =>
          exn_is_Exception e = true ->
          catchable_outcome
            (w_post w (failure_payload "TikTok" j (exn_message e))) = true ->
          snd (scrape_tiktok_profile w j) = Raised e
          /\ posted (fst (scrape_tiktok_profile w j))
             = [(job_webhook_url j, tt_success j (tt_extracted w));
                (job_webhook_url j,
                 failure_payload "TikTok" j (exn_message e))]
      end).
Proof.
  split; intros w Hs Hp Ht.
  - destruct (w_post w (ig_success j (ig_extracted w))) as [status|e] eqn:Hw.
    + eapply delivered_job; eassumption.
    + intros He Hc. now apply undelivered_job.
  - destruct (w_post w (tt_success j (tt_extracted w))) as [status|e] eqn:Hw.
    + eapply delivered_job; eassumption.
    + intros He Hc. now apply undelivered_job.
Qed.

Lemma success_delivery_paths_example :
  snd (scrape_instagram_profile (Fixtures.calm Fixtures.instagram_page)
         Fixtures.nike)
  = Ok (InstagramPage.extract Fixtures.instagram_page Fixtures.the_clock)
  /\ snd (scrape_tiktok_profile
            (Fixtures.success_post_fails Fixtures.tiktok_page) Fixtures.nike)
     = Raised Fixtures.connect_error.
Proof.
  split.
  - apply (proj1 (success_delivery_paths Fixtures.nike)
             (Fixtures.calm Fixtures.instagram_page)); reflexivity.
  - apply (proj2 (success_delivery_paths Fixtures.nike)
             (Fixtures.success_post_fails Fixtures.tiktok_page));
      reflexivity.
Defined.

(** ** Facts about the extractors *)

Lemma instagram_extract_defaults (d : InstagramPage.dom) (now : jsstring) :
  instagram_defaults d (InstagramPage.extract d now).
Proof.
  unfold instagram_defaults, InstagramPage.extract; cbn.
  repeat split; intros H; rewrite ?H; try reflexivity.
  - destruct (InstagramPage.stats_items d); [reflexivity | discriminate].
  - destruct (InstagramPage.stats_items d) as [|? [|? ?]];
      [reflexivity | reflexivity | discriminate].
  - destruct (InstagramPage.stats_items d) as [|? [|? [|? ?]]];
      [reflexivity | reflexivity | reflexivity | discriminate].
Qed.

Lemma tiktok_extract_defaults (d : TikTokPage.dom) (now : jsstring) :
  tiktok_defaults d (TikTokPage.extract d now).
Proof.
  unfold tiktok_defaults, TikTokPage.extract; cbn.
  repeat split; intros;
    match goal with Heq : _ = _ |- _ => rewrite Heq end; reflexivity.
Qed.

Lemma or_else_nil (s : jsstring) : or_else s [] = s.
Proof. destruct s; reflexivity. Qed.

Lemma extract_video_of_item (item : TikTokPage.post_item) :
  video_of_item item (TikTokPage.extract_video item).
Proof.
  unfold video_of_item, TikTokPage.extract_video; cbn. split.
  - destruct (TikTokPage.anchor_href item); cbn; [apply or_else_nil | reflexivity].
  - destruct (TikTokPage.views_text item); reflexivity.
Qed.

Lemma recent_videos_of_items (items : list TikTokPage.post_item) :
  Forall2 video_of_item items (List.map TikTokPage.extract_video items).
Proof.
  induction items as [|item items IH]; cbn; constructor.
  - apply extract_video_of_item.
  - exact IH.
Qed.

(** C8: on every page, each field either extractor reads falls back to its
    own default when its node is absent (the empty string, [false], or the
    count 0), and a job whose external calls all return completes with the
    extracted record whatever nodes are missing; so on a page without bio
    and avatar nodes the job returns a record with empty bio and avatar
    URL. *)
Theorem C8_missing_nodes_defaulted (j : job) (status : Z) :
  (forall w : ig_world,
      w_playwright_start w = None ->
      page_extracted w = true ->
      w_post w (ig_success j (ig_extracted w)) = Ok status ->
      teardown_ok w = true ->
      exists r,
        snd (scrape_instagram_profile w j) = Ok r
        /\ instagram_defaults (w_dom w) r)
  /\ (forall w : tt_world,
      w_playwright_start w = None ->
      page_extracted w = true ->
      w_post w (tt_success j (tt_extracted w)) = Ok status ->
      teardown_ok w = true ->
      exists r,
        snd (scrape_tiktok_profile w j) = Ok r
        /\ tiktok_defaults (w_dom w) r).
Proof.
  split; intros w Hs Hp Hw Ht.
  - exists (ig_extracted w). split.
    + eapply delivered_job; eassumption.
    + apply instagram_extract_defaults.
  - exists (tt_extracted w). split.
    + eapply delivered_job; eassumption.
    + apply tiktok_extract_defaults.
Qed.

Lemma C8_missing_nodes_defaulted_witness :
  (exists r,
      snd (scrape_instagram_profile (Fixtures.calm Fixtures.instagram_page)
             Fixtures.nike) = Ok r
      /\ InstagramPage.bio r = [] /\ InstagramPage.profilePicUrl r = [])
  /\ (exists r,
      snd (scrape_tiktok_profile (Fixtures.calm Fixtures.tiktok_page)
             Fixtures.nike) = Ok r
      /\ TikTokPage.bio r = [] /\ TikTokPage.avatar r = []).
Proof.
  split.
  - destruct (proj1 (C8_missing_nodes_defaulted Fixtures.nike 200)
                (Fixtures.calm Fixtures.instagram_page)
                eq_refl eq_refl eq_refl eq_refl) as [r [Hr Hd]].
    exists r. split; [exact Hr|]. split; apply Hd; reflexivity.
  - destruct (proj2 (C8_missing_nodes_defaulted Fixtures.nike 200)
                (Fixtures.calm Fixtures.tiktok_page)
                eq_refl eq_refl eq_refl eq_refl) as [r [Hr Hd]].
    exists r. split; [exact Hr|]. split; apply Hd; reflexivity.
Defined.

(** C9: on every page with [n] post items the TikTok extractor returns
    [min n 12] recent videos, the [i]-th read off the [i]-th item as its
    link ([""] when the item has no anchor) and its normalized view count
    (0 when the item has no views node); and a job whose external calls all
    return completes with that record however few items there are. *)
Theorem C9_recent_videos (j : job) (status : Z) :
  (forall (d : TikTokPage.dom) (now : jsstring),
      List.length (TikTokPage.recentVideos (TikTokPage.extract d now))
      = Nat.min (List.length (TikTokPage.post_items d)) 12
      /\ Forall2 video_of_item
           (firstn 12 (TikTokPage.post_items d))
           (TikTokPage.recentVideos (TikTokPage.extract d now)))
  /\ (forall w : tt_world,
      w_playwright_start w = None ->
      page_extracted w = true ->
      w_post w (tt_success j (tt_extracted w)) = Ok status ->
      teardown_ok w = true ->
      snd (scrape_tiktok_profile w j)
      = Ok (TikTokPage.extract (w_dom w) (w_now w))).
Proof.
  split.
  - intros d now.
    cbv beta iota zeta delta [TikTokPage.extract TikTokPage.recentVideos].
    split.
    + rewrite length_map, length_firstn. apply Nat.min_comm.
    + apply recent_videos_of_items.
  - intros w Hs Hp Hw Ht. eapply delivered_job; eassumption.
Qed.

Lemma C9_recent_videos_witness :
  exists r,
    snd (scrape_tiktok_profile (Fixtures.calm Fixtures.tiktok_page)
           Fixtures.nike) = Ok r
    /\ List.map (fun v => (TikTokPage.link v, to_Z (TikTokPage.views v)))
         (TikTokPage.recentVideos r)
       = [(js "https://www.tiktok.com/@nike/video/1", Some 12300);
          ([], Some 0)].
Proof.
  eexists. split.
  - apply (proj2 (C9_recent_videos Fixtures.nike 200)
             (Fixtures.calm Fixtures.tiktok_page)); reflexivity.
  - vm_compute. reflexivity.
Defined.

(** C10: the TikTok extractor's [videos] is the number of post items on
    the page, so [recentVideos] always has [min videos 12] entries. *)
Theorem C10_videos_counts_post_items (d : TikTokPage.dom) (now : jsstring) :
  TikTokPage.videos (TikTokPage.extract d now)
  = List.length (TikTokPage.post_items d)
  /\ List.length (TikTokPage.recentVideos (TikTokPage.extract d now))
     = Nat.min (TikTokPage.videos (TikTokPage.extract d now)) 12.
Proof.
  cbv beta iota zeta
    delta [TikTokPage.extract TikTokPage.recentVideos TikTokPage.videos].
  split; [reflexivity|].
  rewrite length_map, length_firstn. apply Nat.min_comm.
Qed.

(** * Facts about the count normalizer *)

Ltac class_cases :=
  unfold Reference.allowed, Instagram.count_class, TikTok.count_class,
    TikTok.keep_class, is_digit, is_dot, is_comma, is_KMB in *;
  repeat match goal with
    | |- context [N.eqb ?a ?b] => destruct (N.eqb_spec a b)
    | |- context [N.leb ?a ?b] => destruct (N.leb_spec a b)
    | H : context [N.eqb ?a ?b] |- _ => destruct (N.eqb_spec a b)
    | H : context [N.leb ?a ?b] |- _ => destruct (N.leb_spec a b)
    end;
  cbn in *; try reflexivity; try discriminate; try lia.


Lemma keep_of_count_class c :
  Instagram.count_class c = true ->
  TikTok.keep_class c = negb (is_comma c).
Proof. class_cases. Qed.

Lemma tt_class_of_count_class c :
  Instagram.count_class c = true -> is_comma c = false ->
  TikTok.count_class c = true.
Proof. class_cases. Qed.

Lemma not_class_of_plain c :
  Reference.allowed c = false ->
  Instagram.count_class c = false /\ TikTok.keep_class c = false
  /\ is_KMB c = false.
Proof. class_cases; repeat split; reflexivity. Qed.

Lemma KMB_classes k :
  is_KMB k = true ->
  Instagram.count_class k = false /\ TikTok.count_class k = false
  /\ TikTok.keep_class k = true /\ Reference.allowed k = true
  /\ is_digit k = false /\ is_comma k = false /\ is_dot k = false.
Proof. class_cases; repeat split; reflexivity. Qed.

Section Spans.

Variable p : char -> bool.

Lemma span_app (a tl : jsstring) :
  forallb p a = true ->
  match tl with [] => True | c :: _ => p c = false end ->
  span p (a ++ tl) = (a, tl).
Proof.
  intros Ha Htl. induction a as [|c a IH]; cbn in *.
  - destruct tl as [|c tl]; cbn; [reflexivity|]. now rewrite Htl.
  - apply andb_true_iff in Ha as [Hc Ha]. now rewrite Hc, IH.
Qed.

Lemma regex_match_skip (junk s : jsstring) :
  forallb (fun c => negb (p c)) junk = true ->
  regex_match p (junk ++ s) = regex_match p s.
Proof.
  induction junk as [|c junk IH]; cbn; [reflexivity|].
  intros H. apply andb_true_iff in H as [Hc H].
  apply negb_true_iff in Hc. rewrite Hc. now apply IH.
Qed.


Lemma regex_match_run (run rest : jsstring) :
  run <> [] ->
  forallb p run = true ->
  match rest with [] => True | c :: _ => p c = false end ->
  regex_match p (run ++ rest) = Some (run, suffix_of rest).
Proof.
  intros Hne Hrun Hrest. destruct run as [|c run]; [congruence|].
  pose proof (span_app (c :: run) rest Hrun Hrest) as Hspan.
  cbn in Hrun. apply andb_true_iff in Hrun as [Hc Hrun].
  cbn [app regex_match]. rewrite Hc.
  cbn [app] in Hspan. rewrite Hspan. reflexivity.
Qed.

End Spans.

Lemma forallb_weaken {A} (p q : A -> bool) (l : list A) :
  (forall x, p x = true -> q x = true) ->
  forallb p l = true -> forallb q l = true.
Proof.
  intros Hpq. induction l as [|x l IH]; cbn; [reflexivity|].
  intros H. apply andb_true_iff in H as [Hx H].
  now rewrite (Hpq _ Hx), IH.
Qed.

Lemma filter_plain (q : char -> bool) (s : jsstring) :
  (forall c, Reference.allowed c = false -> q c = false) ->
  plain s = true -> filter q s = [].
Proof.
  intros Hq. unfold plain. induction s as [|c s IH]; cbn; [reflexivity|].
  intros H. apply andb_true_iff in H as [Hc H].
  apply negb_true_iff in Hc. now rewrite (Hq _ Hc), IH.
Qed.

Lemma keep_run (run : jsstring) :
  forallb Instagram.count_class run = true ->
  filter TikTok.keep_class run = remove_commas run.
Proof.
  unfold remove_commas. induction run as [|c run IH]; cbn; [reflexivity|].
  intros H. apply andb_true_iff in H as [Hc H].
  now rewrite (keep_of_count_class _ Hc), IH.
Qed.


Lemma remove_commas_class (run : jsstring) :
  forallb Instagram.count_class run = true ->
  forallb TikTok.count_class (remove_commas run) = true.
Proof.
  unfold remove_commas. induction run as [|c run IH]; cbn; [reflexivity|].
  intros H. apply andb_true_iff in H as [Hc H].
  destruct (is_comma c) eqn:Hcomma; cbn.
  - now apply IH.
  - now rewrite (tt_class_of_count_class _ Hc Hcomma), IH.
Qed.

Lemma remove_commas_nonempty (run : jsstring) :
  existsb (fun c => negb (is_comma c)) run = true ->
  remove_commas run <> [].
Proof.
  unfold remove_commas. induction run as [|c run IH]; cbn; [discriminate|].
  destruct (is_comma c); cbn; [exact IH | discriminate].
Qed.

(** The filtered tail starts as the tail does. *)
Lemma tail_filtered (q : char -> bool) (rest : jsstring) :
  (forall c, Reference.allowed c = false -> q c = false) ->
  (forall k, is_KMB k = true -> q k = true) ->
  tail_ok rest = true ->
  suffix_of (filter q rest) = suffix_of rest
  /\ match filter q rest with
     | [] => True
     | c :: _ => is_KMB c = true
     end.
Proof.
  intros Hplain HKMB Hrest. destruct rest as [|k rest]; [now split|].
  cbn [tail_ok] in Hrest. destruct (is_KMB k) eqn:Hk.
  - cbn. rewrite (HKMB _ Hk). cbn. rewrite Hk. now split.
  - cbn [orb] in Hrest. rewrite (filter_plain q _ Hplain Hrest).
    cbn. rewrite Hk. now split.
Qed.

(** The Instagram helper on a number inside plain text. *)
Lemma instagram_parseCount_run (junk run rest : jsstring) :
  plain junk = true ->
  numeric_run run = true ->
  tail_ok rest = true ->
  Instagram.parseCount (junk ++ run ++ rest)
  = scale (parseFloat (remove_commas run)) (suffix_of rest).
Proof.
  unfold numeric_run. intros Hj Hr Ht.
  apply andb_true_iff in Hr as [Hcls Hex].
  assert (Hne : run <> []) by (destruct run; [discriminate | congruence]).
  unfold Instagram.parseCount.
  destruct (junk ++ run ++ rest) as [|c0 text0] eqn:Htext.
  { destruct junk; [destruct run; [congruence | discriminate] | discriminate]. }
  rewrite <- Htext. clear Htext c0 text0.
  rewrite regex_match_skip.
  2:{ unfold plain in Hj. eapply forallb_weaken; [|exact Hj].
      intros c Hc. apply negb_true_iff in Hc.
      now rewrite (proj1 (not_class_of_plain c Hc)). }
  rewrite regex_match_run; trivial.
  destruct rest as [|k rest]; [exact I|].
  cbn [tail_ok] in Ht. destruct (is_KMB k) eqn:Hk.
  - apply (KMB_classes k Hk).
  - cbn in Ht. apply andb_true_iff in Ht as [Hc _].
    apply negb_true_iff in Hc. apply (not_class_of_plain k Hc).
Qed.

(** The TikTok helper on the same inputs. *)
Lemma tiktok_parseCount_run (junk run rest : jsstring) :
  plain junk = true ->
  numeric_run run = true ->
  tail_ok rest = true ->
  TikTok.parseCount (junk ++ run ++ rest)
  = scale (parseFloat (remove_commas run)) (suffix_of rest).
Proof.
  unfold numeric_run. intros Hj Hr Ht.
  apply andb_true_iff in Hr as [Hcls Hex].
  unfold TikTok.parseCount.
  destruct (junk ++ run ++ rest) as [|c0 text0] eqn:Htext.
  { destruct junk; [destruct run; [discriminate | discriminate] | discriminate]. }
  rewrite <- Htext. clear Htext c0 text0.
  rewrite !filter_app.
  rewrite (filter_plain TikTok.keep_class junk)
    by (trivial; intros c Hc; apply (not_class_of_plain c Hc)).
  rewrite (keep_run run Hcls). cbn [app].
  destruct (tail_filtered TikTok.keep_class rest) as [Hsuf Hhead]; trivial.
  { intros c Hc. apply (not_class_of_plain c Hc). }
  { intros k Hk. apply (KMB_classes k Hk). }
  rewrite regex_match_run.
  - now rewrite Hsuf.
  - now apply remove_commas_nonempty.
  - now apply remove_commas_class.
  - destruct (filter TikTok.keep_class rest) as [|k ?]; [exact I|].
    apply (KMB_classes k Hhead).
Qed.


(** ** The reference algorithm on the same inputs *)

Lemma suffix_letter_of (rest : jsstring) :
  suffix_of rest
  = match Reference.suffix_letter rest with Some k => [k] | None => [] end.
Proof.
  destruct rest as [|k rest]; cbn; [reflexivity|]. now destruct (is_KMB k).
Qed.

Lemma KMB_inv k : is_KMB k = true -> k = 75%N \/ k = 77%N \/ k = 66%N.
Proof. class_cases; auto. Qed.






Lemma reference_plain (text : jsstring) :
  plain text = true -> Reference.normalizeCount text = of_Z 0.
Proof.
  intros Hp. unfold Reference.normalizeCount, Reference.strip.
  now rewrite (filter_plain Reference.allowed text).
Qed.

(** * The claims about the count normalizer *)

(** C6, at the input ["."]: the run holds no digit, [parseFloat] yields
    [NaN], and both helpers return [NaN]; so does the Instagram helper on
    ["Hello, world"] (the run is [","]) and the TikTok helper on
    ["No. of views"] (what remains after stripping is ["."]). *)
Theorem C6_parseCount_not_a_number :
  Instagram.parseCount (js ".") = NaN
  /\ TikTok.parseCount (js ".") = NaN
  /\ Instagram.parseCount (js "Hello, world") = NaN
  /\ TikTok.parseCount (js "No. of views") = NaN
  /\ to_Z (Instagram.parseCount (js ".")) = None.
Proof. vm_compute. repeat split. Qed.




(** * Further facts about job execution *)

Section MoreJobFacts.

Variable platform : string.
Variable profile_url : string -> string.
Variable ready_selector : string.
Context {dom data : Type}.
Variable extract : dom -> jsstring -> data.

Local Abbreviation world := (Job.world dom data).
Local Abbreviation run := (Job.run platform profile_url ready_selector extract).
Local Abbreviation attempt :=
  (Job.attempt platform profile_url ready_selector extract).
Local Abbreviation success_payload := (Job.success_payload platform (data := data)).
Local Abbreviation failure_payload := (Job.failure_payload platform (data := data)).
Local Abbreviation extracted := (Job.extracted extract).

Ltac unfold_run :=
  unfold Job.run, scrape_profile, Job.attempt, report_failure,
    release, post, call, log, set_browser, get_browser,
    try_finally, try_except, bind, ret, raise, initial,
    webhook_calls, close_calls, statuses, setup_calls in *.

Ltac split_faults :=
  repeat match goal with
    | |- context [match ?x with _ => _ end] =>
        match type of x with
        | option exn => destruct x eqn:?
        | outcome _ => destruct x eqn:?
        | bool => destruct x eqn:?
        end; cbn in *
    end.

Ltac run_cases := unfold_run; cbn in *; split_faults; cbn in *.

Ltac tidy :=
  repeat match goal with
    | H : Raised _ = Raised _ |- _ => inversion H; subst; clear H
    | H : Ok _ = Ok _ |- _ => inversion H; subst; clear H
    | H : Some _ = Some _ |- _ => inversion H; subst; clear H
    | H : ?x = Raised _, H' : context [?x] |- _ => rewrite H in H'; cbn in H'
    | H : ?x = Ok _, H' : context [?x] |- _ => rewrite H in H'; cbn in H'
    end;
  rewrite ?andb_false_r in *; try discriminate; try congruence.

(** What comes back is what was posted. *)
Lemma returned_record_was_posted (w : world) (j : job) (r : data) :
  snd (run w j) = Ok r ->
  r = extracted w
  /\ posted (fst (run w j)) = [(job_webhook_url j, success_payload j r)].
Proof.
  unfold Job.extracted. intros Hr.
  run_cases; tidy; split; reflexivity.
Qed.

Lemma statuses_in_order (w : world) (j : job) :
  let t := fst (run w j) in
  statuses t = [] \/ statuses t = ["completed"%string]
  \/ statuses t = ["failed"%string]
  \/ statuses t = ["completed"%string; "failed"%string].
Proof.
  run_cases; auto.
Qed.

Lemma posts_well_formed (w : world) (j : job) :
  Forall (well_formed_post platform j) (posted (fst (run w j))).
Proof.
  unfold well_formed_post.
  run_cases;
    repeat (apply Forall_cons || apply Forall_nil); cbn;
    (split; [reflexivity | split; [reflexivity | split; [reflexivity|]]]);
    first [ left; split; [reflexivity | eexists; reflexivity]
          | right; split; [reflexivity | eexists; reflexivity] ].
Qed.

Lemma setup_calls_prefix (w : world) (j : job) :
  setup_calls (fst (run w j))
  = firstn (setup_reached w) (setup_sequence profile_url ready_selector j).
Proof.
  unfold setup_reached, setup_sequence. run_cases; reflexivity.
Qed.

Lemma uncaught_fault (w : world) (j : job) (e : exn) :
  w_playwright_start w = None ->
  snd (attempt w j initial) = Raised e ->
  exn_is_Exception e = false ->
  posted (fst (run w j)) = posted (trace (fst (attempt w j initial)))
  /\ (teardown_ok w = true -> snd (run w j) = Raised e).
Proof.
  unfold teardown_ok. intros Hs Ha He.
  run_cases; rewrite ?Hs in *; cbn in *; tidy;
    (split; [reflexivity | intros Ht; cbn in Ht; tidy; try reflexivity]).
Qed.

Lemma playwright_start_failure (w : world) (j : job) (e : exn) :
  w_playwright_start w = Some e ->
  run w j = ([CallPlaywrightStart], Raised e).
Proof.
  intros Hs. unfold_run. cbn. rewrite Hs. reflexivity.
Qed.

Lemma teardown_fault_is_the_outcome (w : world) (j : job) (e : exn) :
  w_playwright_start w = None ->
  (w_playwright_stop w = Some e -> snd (run w j) = Raised e)
  /\ (w_launch w = None -> w_close w = Some e ->
      w_playwright_stop w = None -> snd (run w j) = Raised e).
Proof.
  intros Hs. split.
  - intros Hstop. run_cases; tidy.
  - intros Hl Hc Hstop. run_cases; tidy.
Qed.

Lemma teardown_comes_last (w : world) (j : job) :
  w_playwright_start w = None ->
  exists pre,
    fst (run w j)
    = pre ++ (if no_fault (w_launch w)
              then [CallClose; CallPlaywrightStop]
              else [CallPlaywrightStop])
    /\ close_calls pre = 0%nat.
Proof.
  intros Hs.
  run_cases; tidy;
    match goal with
    | |- exists pre, ?l = pre ++ [_; _] /\ _ =>
        exists (removelast (removelast l)); split; reflexivity
    | |- exists pre, ?l = pre ++ [_] /\ _ =>
        exists (removelast l); split; reflexivity
    end.
Qed.

Lemma calm_trace (w : world) (j : job) (status : Z) :
  w_playwright_start w = None ->
  page_extracted w = true ->
  w_post w (success_payload j (extracted w)) = Ok status ->
  teardown_ok w = true ->
  fst (run w j)
  = setup_sequence profile_url ready_selector j
    ++ [CallPost (job_webhook_url j) (success_payload j (extracted w)) 30;
        CallClose; CallPlaywrightStop].
Proof.
  unfold page_extracted, teardown_ok, Job.extracted, setup_sequence.
  intros Hs Hp Hw Ht.
  run_cases; rewrite ?Hs in *; cbn in *; tidy; reflexivity.
Qed.

End MoreJobFacts.

(** * Facts about binary64 rounding *)

Local Abbreviation bra := (binary_round_aux prec emax).

Lemma iter_pos_invariant {A} (P : A -> Prop) (f : A -> A) :
  (forall x, P x -> P (f x)) ->
  forall (n : positive) (x : A), P x -> P (iter_pos f n x).
Proof.
  intros Hf. induction n as [n IH|n IH|]; intros x Hx; cbn; auto.
Qed.

Lemma shr_1_nonneg (r : shr_record) : 0 <= shr_m r -> 0 <= shr_m (shr_1 r).
Proof.
  destruct r as [m rb sb]. destruct m as [|[p|p|]|p]; cbn; lia.
Qed.

Lemma shr_nonneg (r : shr_record) (e n : Z) :
  0 <= shr_m r ->
  0 <= shr_m (fst (shr r e n)) /\ e <= snd (shr r e n).
Proof.
  intros Hr. destruct n as [|p|p]; cbn; try (split; [assumption | lia]).
  split; [|lia].
  apply (iter_pos_invariant (fun r => 0 <= shr_m r)); auto using shr_1_nonneg.
Qed.

Lemma shr_record_of_loc_m (m : Z) (l : location) :
  shr_m (shr_record_of_loc m l) = m.
Proof. destruct l as [|[]]; reflexivity. Qed.

Lemma shr_fexp_nonneg (m e : Z) (l : location) :
  0 <= m ->
  0 <= shr_m (fst (shr_fexp prec emax m e l))
  /\ e <= snd (shr_fexp prec emax m e l).
Proof.
  intros Hm. unfold shr_fexp. apply shr_nonneg.
  now rewrite shr_record_of_loc_m.
Qed.

Lemma round_nearest_even_nonneg (m : Z) (l : location) :
  0 <= m -> 0 <= round_nearest_even m l.
Proof.
  intros Hm. destruct l as [|[]]; cbn; try lia. destruct (Z.even m); lia.
Qed.

(** Rounding a non-negative mantissa gives a zero, an infinity or a finite
    number whose exponent is not below the one it started from. *)
Lemma bra_shape (s : bool) (m e : Z) (l : location) :
  0 <= m ->
  bra s m e l = S754_zero s \/ bra s m e l = S754_infinity s
  \/ exists m' e', bra s m e l = S754_finite s m' e' /\ e <= e'.
Proof.
  intros Hm. unfold binary_round_aux.
  pose proof (shr_fexp_nonneg m e l Hm) as [H1 H1e].
  destruct (shr_fexp prec emax m e l) as [mrs' e'] eqn:E1. cbn [fst snd] in *.
  pose proof (shr_fexp_nonneg (round_nearest_even (shr_m mrs') (loc_of_shr_record mrs'))
                e' loc_Exact (round_nearest_even_nonneg _ _ H1)) as [H2 H2e].
  destruct (shr_fexp prec emax _ e' loc_Exact) as [mrs'' e''] eqn:E2.
  cbn [fst snd] in *.
  destruct (shr_m mrs'') as [|p|p]; [auto | | lia].
  destruct (e'' <=? emax - prec); [|auto].
  right. right. exists p, e''. split; [reflexivity | lia].
Qed.

Lemma bra_not_nan (s : bool) (m e : Z) (l : location) :
  0 <= m -> bra s m e l <> S754_nan.
Proof.
  intros Hm. destruct (bra_shape s m e l Hm) as [H|[H|(m' & e' & H & _)]];
    rewrite H; discriminate.
Qed.

(** A mantissa that already sits at its exponent is kept as it is. *)
Lemma bra_id (s : bool) (m : positive) (e : Z) :
  fexp prec emax (Zpos (digits2_pos m) + e) <= e ->
  e <= emax - prec ->
  bra s (Zpos m) e loc_Exact = S754_finite s m e.
Proof.
  intros Hf He. unfold binary_round_aux, shr_fexp.
  cbn [Zdigits2 shr_record_of_loc].
  assert (Hshr : forall r, shr r e (fexp prec emax (Zpos (digits2_pos m) + e) - e)
                           = (r, e)).
  { intros r. destruct (fexp prec emax (Zpos (digits2_pos m) + e) - e) eqn:E;
      try reflexivity. lia. }
  rewrite Hshr. cbn [shr_m loc_of_shr_record round_nearest_even Zdigits2
                       shr_record_of_loc].
  rewrite Hshr. cbn [shr_m].
  apply Z.leb_le in He. now rewrite He.
Qed.

Lemma digits2_iter_xO (p d : positive) :
  Zpos (digits2_pos (Pos.iter xO p d)) = Zpos (digits2_pos p) + Zpos d.
Proof.
  induction d as [|d IH] using Pos.peano_ind.
  - cbn. lia.
  - rewrite Pos.iter_succ. cbn [digits2_pos]. lia.
Qed.

Lemma Zpos_iter_xO (p d : positive) :
  Zpos (Pos.iter xO p d) = Zpos p * 2 ^ Zpos d.
Proof.
  induction d as [|d IH] using Pos.peano_ind.
  - cbn. lia.
  - rewrite Pos.iter_succ, Pos2Z.inj_succ, Z.pow_succ_r by lia.
    rewrite Pos2Z.inj_xO, IH. lia.
Qed.

Lemma to_Z_finite_nonneg (m : positive) (e : Z) :
  0 <= e -> to_Z (S754_finite false m e) = Some (Zpos m * 2 ^ e).
Proof. intros He. cbn. apply Z.leb_le in He. now rewrite He. Qed.

(** The Number value of a positive integer is an integer or [+Infinity],
    and that integer itself when it sits below the precision. *)
Lemma binary_round_integer (p : positive) :
  binary_round prec emax false p 0 = Infinity
  \/ exists n, 0 <= n /\ to_Z (binary_round prec emax false p 0) = Some n
               /\ (Zpos (digits2_pos p) <= prec -> n = Zpos p).
Proof.
  unfold binary_round, shl_align.
  rewrite Z.add_0_r, Z.sub_0_r.
  destruct (fexp prec emax (Zpos (digits2_pos p))) as [|q|d] eqn:Ef.
  - (* already aligned *)
    rewrite bra_id; [|rewrite Z.add_0_r, Ef; lia | unfold emax, prec; lia].
    right. exists (Zpos p). rewrite to_Z_finite_nonneg by lia.
    split; [lia|]. split; [f_equal; lia | reflexivity].
  - (* too many bits: rounded at a positive exponent *)
    destruct (bra_shape false (Zpos p) 0 loc_Exact ltac:(lia))
      as [H|[H|(m' & e' & H & He')]]; rewrite H.
    + right. exists 0. cbn. split; [lia|]. split; [reflexivity|].
      unfold fexp, prec, emax, emin in *. lia.
    + now left.
    + right. exists (Zpos m' * 2 ^ e'). rewrite to_Z_finite_nonneg by lia.
      split; [|split; [reflexivity|]].
      * apply Z.mul_nonneg_nonneg; [lia | apply Z.pow_nonneg; lia].
      * unfold fexp, prec, emax, emin in *. lia.
  - (* shifted left to the precision *)
    rewrite bra_id.
    + right. exists (Zpos p). split; [lia|]. split; [|reflexivity].
      cbn [to_Z]. cbn [Z.leb Z.compare Z.opp].
      rewrite Zpos_iter_xO, Z.mod_mul, Z.eqb_refl, Z.div_mul;
        try reflexivity; apply Z.pow_nonzero; lia.
    + rewrite digits2_iter_xO.
      replace (Zpos (digits2_pos p) + Zpos d + Zneg d)
        with (Zpos (digits2_pos p)) by lia.
      rewrite Ef. lia.
    + unfold emax, prec. lia.
Qed.

Lemma bra_pos_shape (m e : Z) (l : location) : pos_shape (bra false m e l).
Proof.
  unfold pos_shape, binary_round_aux.
  destruct (shr_fexp prec emax m e l) as [mrs' e'].
  destruct (shr_fexp prec emax _ e' loc_Exact) as [mrs'' e''].
  destruct (shr_m mrs'') as [|p|p]; auto.
  destruct (e'' <=? emax - prec); eauto 6.
Qed.

Lemma Math_floor_count_like (x : number) :
  pos_shape x -> count_like (Math_floor x).
Proof.
  unfold count_like.
  intros [->|[->|[->|(m & e & ->)]]]; cbn [Math_floor]; auto.
  - right. right. exists 0. now split.
  - destruct (0 <=? e) eqn:He.
    + right. right. apply Z.leb_le in He.
      exists (Zpos m * 2 ^ e). rewrite to_Z_finite_nonneg by lia.
      split; [|reflexivity].
      apply Z.mul_nonneg_nonneg; [lia | apply Z.pow_nonneg; lia].
    + assert (Hq : 0 <= Zpos m / 2 ^ (- e))
        by (apply Z.div_pos; [lia | apply Z.pow_pos_nonneg; lia]).
      destruct (Zpos m / 2 ^ (- e)) as [|q|q]; [| |lia]; cbn [binary_normalize].
      * right. right. exists 0. now split.
      * destruct (binary_round_integer q) as [H|(n & Hn & H & _)]; eauto.
Qed.

Lemma mul_pos_shape (x y : number) :
  pos_shape x -> pos_shape y -> pos_shape (mul x y).
Proof.
  unfold pos_shape.
  intros [->|[->|[->|(m & e & ->)]]] [->|[->|[->|(m' & e' & ->)]]];
    cbn; auto; try (right; right; right; eauto; fail).
  apply bra_pos_shape.
Qed.

Lemma of_Z_pos_shape (n : Z) : 0 <= n -> pos_shape (of_Z n).
Proof.
  intros Hn. unfold of_Z, binary_normalize.
  destruct n as [|p|p]; [right; now left | | lia].
  unfold binary_round. destruct (shl_align p 0 _) as [mz ez].
  apply bra_pos_shape.
Qed.

Lemma span_forallb (p : char -> bool) (s : jsstring) :
  forallb p (fst (span p s)) = true.
Proof.
  induction s as [|c s IH]; cbn; [reflexivity|].
  destruct (p c) eqn:Hc; [|reflexivity].
  destruct (span p s) as [a b]. cbn in *. now rewrite Hc, IH.
Qed.

Lemma of_ratio_pos_shape (n d : Z) : pos_shape (of_ratio n d).
Proof.
  unfold of_ratio. destruct n as [|p|p]; [right; now left | |];
    destruct (SFdiv_core_binary _ _ _ _ _ _) as [[m e] l];
    apply bra_pos_shape.
Qed.

Lemma parseFloat_pos_shape (s : jsstring) : pos_shape (parseFloat s).
Proof.
  unfold parseFloat. destruct (span is_digit s) as [ip rest].
  destruct ip, (match rest with
                | [] => []
                | c :: rest' => if is_dot c then fst (span is_digit rest') else []
                end); try apply of_ratio_pos_shape.
  now left.
Qed.

Lemma scale_cases (num : number) (suffix : jsstring) :
  scale num suffix = Math_floor num
  \/ exists k, (k = 1000 \/ k = 1000000 \/ k = 1000000000)
               /\ scale num suffix = Math_floor (mul num (of_Z k)).
Proof.
  unfold scale.
  repeat match goal with
    | |- context [match ?x with _ => _ end] => destruct x
    end; eauto 6.
Qed.

Lemma scale_count_like (num : number) (suffix : jsstring) :
  pos_shape num -> count_like (scale num suffix).
Proof.
  intros Hn.
  destruct (scale_cases num suffix) as [->|(k & Hk & ->)];
    apply Math_floor_count_like; [assumption|].
  apply mul_pos_shape; [assumption|]. apply of_Z_pos_shape. lia.
Qed.

Lemma count_like_zero : count_like (of_Z 0).
Proof. right. right. exists 0. now split. Qed.

(** Every result of either helper is [NaN], [+Infinity] or a non-negative
    integer. *)
Lemma parseCount_count_like (text : jsstring) :
  count_like (Instagram.parseCount text) /\ count_like (TikTok.parseCount text).
Proof.
  unfold Instagram.parseCount, TikTok.parseCount.
  destruct text as [|c text]; [split; apply count_like_zero|]. split.
  - destruct (regex_match Instagram.count_class (c :: text)) as [[m1 m2]|];
      [|apply count_like_zero].
    apply scale_count_like, parseFloat_pos_shape.
  - destruct (regex_match TikTok.count_class _) as [[m1 m2]|];
      [|apply count_like_zero].
    apply scale_count_like, parseFloat_pos_shape.
Qed.

(** ** When the result is [NaN] *)

Lemma digit_val_nonneg (c : char) : is_digit c = true -> 0 <= digit_val c.
Proof.
  unfold is_digit, digit_val. intros H.
  apply andb_true_iff in H as [H _]. apply N.leb_le in H. lia.
Qed.

Lemma digits_val_nonneg (ds : jsstring) :
  forallb is_digit ds = true -> 0 <= digits_val ds.
Proof.
  assert (H : forall acc, 0 <= acc -> forallb is_digit ds = true ->
              0 <= fold_left (fun a c => 10 * a + digit_val c) ds acc).
  { induction ds as [|c ds IH]; intros a Ha Hd;
      cbn [fold_left forallb] in *; [assumption|].
    apply andb_true_iff in Hd as [Hc Hd].
    apply IH; [|assumption]. pose proof (digit_val_nonneg c Hc).
    unfold digit_val in *. lia. }
  intros Hd. apply H; [lia | assumption].
Qed.

Lemma of_ratio_not_nan (n d : Z) : 0 <= n -> 0 < d -> of_ratio n d <> NaN.
Proof.
  intros Hn Hd. unfold of_ratio. destruct n as [|p|p]; [discriminate | | lia].
  unfold SFdiv_core_binary.
  set (s := 0 - 0 - _).
  set (m' := match s with Z0 => Zpos p | Zpos _ => Z.shiftl (Zpos p) s | Zneg _ => 0 end).
  assert (Hm' : 0 <= m').
  { subst m'. destruct s; try lia. apply Z.shiftl_nonneg. lia. }
  destruct (Z.div_eucl m' d) as [q r] eqn:E.
  assert (Hq : q = m' / d) by (unfold Z.div; now rewrite E).
  apply bra_not_nan. subst q. apply Z.div_pos; lia.
Qed.

Lemma parseFloat_nan (s : jsstring) :
  parseFloat s = NaN <-> has_literal s = false.
Proof.
  unfold parseFloat, has_literal.
  assert (Hr : forall ip fp : jsstring,
             forallb is_digit ip = true -> forallb is_digit fp = true ->
             (ip <> [] \/ fp <> []) ->
             of_ratio (digits_val (ip ++ fp)) (10 ^ Z.of_nat (List.length fp))
             <> NaN).
  { intros ip fp Hi Hf _. apply of_ratio_not_nan.
    - apply digits_val_nonneg. now rewrite forallb_app, Hi, Hf.
    - apply Z.pow_pos_nonneg; lia. }
  destruct s as [|c s]; cbn [span]; [now split|].
  destruct (is_digit c) eqn:Hc.
  - pose proof (span_forallb is_digit s) as Hsp.
    destruct (span is_digit s) as [a b]. cbn [fst] in Hsp. cbn [orb].
    split; [|discriminate]. intros H. exfalso. revert H.
    set (fp := match b with
               | [] => []
               | c0 :: rest' => if is_dot c0 then fst (span is_digit rest') else []
               end).
    assert (Hfp : forallb is_digit fp = true).
    { subst fp. destruct b as [|c0 b]; [reflexivity|].
      destruct (is_dot c0); [apply span_forallb | reflexivity]. }
    apply (Hr (c :: a) fp); cbn; [now rewrite Hc, Hsp | assumption |].
    left. discriminate.
  - cbn [orb]. destruct (is_dot c) eqn:Hd; cbn [andb]; [|now split].
    destruct s as [|c' s]; cbn [span fst]; [now split|].
    destruct (is_digit c') eqn:Hc'; [|now split].
    pose proof (span_forallb is_digit s) as Hsp.
    destruct (span is_digit s) as [a b]. cbn [fst] in *.
    split; [|discriminate]. intros H. exfalso. revert H.
    apply (Hr [] (c' :: a)); cbn; [reflexivity | now rewrite Hc', Hsp |].
    right. discriminate.
Qed.

Lemma binary_round_not_nan (s : bool) (p : positive) (e : Z) :
  binary_round prec emax s p e <> NaN.
Proof.
  unfold binary_round. destruct (shl_align p e _) as [mz ez].
  apply bra_not_nan. lia.
Qed.

Lemma Math_floor_nan (x : number) : Math_floor x = NaN <-> x = NaN.
Proof.
  split; [|now intros ->].
  destruct x as [s|s| |s m e]; cbn [Math_floor]; try discriminate; auto.
  destruct (0 <=? e); [discriminate|].
  unfold binary_normalize.
  destruct ((if s then Z.neg m else Z.pos m) / 2 ^ (- e)) as [|q|q];
    [discriminate | |]; intros H; now apply binary_round_not_nan in H.
Qed.

Lemma mul_finite_nan (x : number) (sy : bool) (my : positive) (ey : Z) :
  mul x (S754_finite sy my ey) = NaN <-> x = NaN.
Proof.
  split; [|now intros ->].
  destruct x as [s|s| |s m e]; cbn; try discriminate; auto.
  intros H. apply bra_not_nan in H; [contradiction | lia].
Qed.

Lemma scale_nan (num : number) (suffix : jsstring) :
  scale num suffix = NaN <-> num = NaN.
Proof.
  destruct (scale_cases num suffix) as [->|(k & Hk & ->)];
    rewrite Math_floor_nan; [reflexivity|].
  destruct Hk as [->|[->| ->]];
    match goal with
    | |- context [of_Z ?k] =>
        let E := fresh in
        destruct (of_Z k) as [?|?| |sy my ey] eqn:E;
        try (vm_compute in E; discriminate E)
    end; apply mul_finite_nan.
Qed.

(** Either helper returns [NaN] exactly when its pattern matches and the
    run it captured (commas removed, for Instagram) does not start with a
    decimal literal. *)
Lemma parseCount_nan (text : jsstring) :
  (Instagram.parseCount text = NaN <->
   exists m1 m2,
     regex_match Instagram.count_class text = Some (m1, m2)
     /\ has_literal (remove_commas m1) = false)
  /\ (TikTok.parseCount text = NaN <->
      exists m1 m2,
        regex_match TikTok.count_class (filter TikTok.keep_class text)
        = Some (m1, m2)
        /\ has_literal m1 = false).
Proof.
  unfold Instagram.parseCount, TikTok.parseCount. split.
  - destruct text as [|c text].
    { split; [discriminate | now intros (m1 & m2 & H & _)]. }
    destruct (regex_match Instagram.count_class (c :: text)) as [[m1 m2]|].
    + rewrite scale_nan, parseFloat_nan. split.
      * intros H. now exists m1, m2.
      * intros (a & b & Hab & H). now inversion Hab; subst.
    + split; [discriminate | now intros (m1 & m2 & H & _)].
  - destruct text as [|c text].
    { split; [discriminate | now intros (m1 & m2 & H & _)]. }
    destruct (regex_match TikTok.count_class _) as [[m1 m2]|].
    + rewrite scale_nan, parseFloat_nan. split.
      * intros H. now exists m1, m2.
      * intros (a & b & Hab & H). now inversion Hab; subst.
    + split; [discriminate | now intros (m1 & m2 & H & _)].
Qed.

(** ** Exact integers *)

Lemma holds_integer_to_Z (x : number) (v : Z) :
  holds_integer x v -> to_Z x = Some v.
Proof.
  intros [[-> ->]|(m & e & -> & He & Hm)]; [reflexivity|].
  cbn [to_Z]. destruct (0 <=? e) eqn:E.
  - apply Z.leb_le in E. assert (e = 0) by lia. subst e.
    cbn in Hm. f_equal. cbn. lia.
  - rewrite Hm, Z.mod_mul, Z.eqb_refl, Z.div_mul;
      try reflexivity; apply Z.pow_nonzero; lia.
Qed.

Lemma holds_integer_pos (m : positive) (e v : Z) :
  e <= 0 -> Zpos m = v * 2 ^ (- e) -> 0 < v.
Proof.
  intros He Hm. assert (0 < 2 ^ (- e)) by (apply Z.pow_pos_nonneg; lia). nia.
Qed.

Lemma shr_1_double (m1 : Z) :
  0 < m1 ->
  shr_1 {| shr_m := m1 * 2; shr_r := false; shr_s := false |}
  = {| shr_m := m1; shr_r := false; shr_s := false |}.
Proof.
  intros H. destruct m1 as [|p|p]; try lia.
  replace (Zpos p * 2) with (Zpos p~0) by lia. reflexivity.
Qed.

Lemma pow2_xO (n : positive) : 2 ^ Zpos n~0 = 2 ^ Zpos n * 2 ^ Zpos n.
Proof.
  replace (Zpos n~0) with (Zpos n + Zpos n) by lia.
  now rewrite Z.pow_add_r by lia.
Qed.

Lemma pow2_xI (n : positive) : 2 ^ Zpos n~1 = 2 ^ Zpos n * 2 ^ Zpos n * 2.
Proof.
  replace (Zpos n~1) with (Zpos n + Zpos n + 1) by lia.
  rewrite !Z.pow_add_r by lia. reflexivity.
Qed.

Lemma shr_exact (n : positive) :
  forall m1 : Z,
    0 < m1 ->
    iter_pos shr_1 n
      {| shr_m := m1 * 2 ^ Zpos n; shr_r := false; shr_s := false |}
    = {| shr_m := m1; shr_r := false; shr_s := false |}.
Proof.
  induction n as [n IH|n IH|]; intros m1 Hm1; cbn [iter_pos].
  - assert (H2 : 0 < 2 ^ Zpos n) by (apply Z.pow_pos_nonneg; lia).
    rewrite pow2_xI.
    replace (m1 * (2 ^ Zpos n * 2 ^ Zpos n * 2))
      with ((m1 * 2 ^ Zpos n * 2 ^ Zpos n) * 2) by lia.
    rewrite shr_1_double, IH, IH; try reflexivity; try assumption; nia.
  - assert (H2 : 0 < 2 ^ Zpos n) by (apply Z.pow_pos_nonneg; lia).
    rewrite pow2_xO.
    replace (m1 * (2 ^ Zpos n * 2 ^ Zpos n))
      with (m1 * 2 ^ Zpos n * 2 ^ Zpos n) by lia.
    rewrite IH, IH; try reflexivity; try assumption; nia.
  - change (2 ^ 1) with 2. now apply shr_1_double.
Qed.

Lemma digits2_size (p : positive) : digits2_pos p = Pos.size p.
Proof. induction p; cbn; congruence. Qed.

Lemma digits2_log2 (p : positive) :
  Zpos (digits2_pos p) = Z.log2 (Zpos p) + 1.
Proof.
  rewrite digits2_size. destruct p; cbn; lia.
Qed.

Lemma digits2_mul_pow2 (p q : positive) (v k : Z) :
  0 < v -> 0 <= k -> Zpos p = v * 2 ^ k -> Zpos q = v ->
  Zpos (digits2_pos p) = Zpos (digits2_pos q) + k.
Proof.
  intros Hv Hk Hp Hq. rewrite !digits2_log2, Hp, Hq.
  rewrite Z.log2_mul_pow2; lia.
Qed.

Lemma digits2_bound (q : positive) :
  Zpos q < 2 ^ 53 -> Zpos (digits2_pos q) <= 53.
Proof.
  intros H. rewrite digits2_log2.
  assert (Z.log2 (Zpos q) < 53) by (apply Z.log2_lt_pow2; lia). lia.
Qed.

Lemma fexp_small (D : Z) :
  D <= 53 -> fexp prec emax D <= 0 /\ D - 53 <= fexp prec emax D.
Proof. unfold fexp, emin, prec, emax. lia. Qed.

(** Rounding an integer below [2^53] keeps it. *)
Lemma bra_exact (m : positive) (e v : Z) :
  e <= 0 -> Zpos m = v * 2 ^ (- e) -> v < 2 ^ 53 ->
  holds_integer (bra false (Zpos m) e loc_Exact) v.
Proof.
  intros He Hm Hv.
  pose proof (holds_integer_pos m e v He Hm) as Hvpos.
  destruct v as [|q|q]; try lia.
  assert (Hd : Zpos (digits2_pos m) = Zpos (digits2_pos q) + - e)
    by (apply (digits2_mul_pow2 m q (Zpos q)); auto; lia).
  pose proof (digits2_bound q Hv) as Hq.
  destruct (fexp_small (Zpos (digits2_pos q)) Hq) as [Hf1 Hf2].
  assert (HD : Zpos (digits2_pos m) + e = Zpos (digits2_pos q)) by lia.
  destruct (Z_le_gt_dec (fexp prec emax (Zpos (digits2_pos q))) e) as [Hle|Hgt].
  - rewrite bra_id; [| rewrite HD; lia | unfold emax, prec; lia].
    right. exists m, e. auto.
  - unfold binary_round_aux, shr_fexp. cbn [Zdigits2 shr_record_of_loc].
    rewrite HD.
    destruct (fexp prec emax (Zpos (digits2_pos q)) - e) as [|pn|pn] eqn:En;
      try lia.
    cbn [shr].
    assert (Hpow : 2 ^ (- e) = 2 ^ (- e - Zpos pn) * 2 ^ Zpos pn).
    { rewrite <- Z.pow_add_r by lia. f_equal. lia. }
    assert (H1 : 0 < 2 ^ (- e - Zpos pn)) by (apply Z.pow_pos_nonneg; lia).
    assert (Hm1 : exists p1, Zpos p1 = Zpos q * 2 ^ (- e - Zpos pn)).
    { destruct (Zpos q * 2 ^ (- e - Zpos pn)) as [|p1|p1] eqn:E; try lia.
      now exists p1. }
    destruct Hm1 as [p1 Hp1].
    replace (Zpos m) with (Zpos p1 * 2 ^ Zpos pn)
      by (rewrite Hm, Hpow, Hp1; lia).
    rewrite shr_exact by lia.
    cbn [shr_m loc_of_shr_record round_nearest_even Zdigits2 shr_record_of_loc].
    assert (Hd1 : Zpos (digits2_pos p1)
                  = Zpos (digits2_pos q) + (- e - Zpos pn))
      by (apply (digits2_mul_pow2 p1 q (Zpos q)); auto; lia).
    replace (Zpos (digits2_pos p1) + (e + Zpos pn))
      with (Zpos (digits2_pos q)) by lia.
    replace (fexp prec emax (Zpos (digits2_pos q)) - (e + Zpos pn))
      with 0 by lia.
    cbn [shr shr_m].
    assert (Hb : (e + Zpos pn <=? emax - prec) = true)
      by (apply Z.leb_le; unfold emax, prec; lia).
    rewrite Hb. right. exists p1, (e + Zpos pn).
    split; [reflexivity|]. split; [lia|].
    rewrite Hp1. do 2 f_equal. lia.
Qed.

Lemma binary_round_small (p : positive) :
  Zpos p < 2 ^ 53 ->
  holds_integer (binary_round prec emax false p 0) (Zpos p).
Proof.
  intros Hp. unfold binary_round, shl_align.
  rewrite Z.add_0_r, Z.sub_0_r.
  pose proof (digits2_bound p Hp) as Hd.
  destruct (fexp_small _ Hd) as [Hf _].
  destruct (fexp prec emax (Zpos (digits2_pos p))) as [|q|d] eqn:Ef; try lia.
  - apply bra_exact; [lia | cbn; lia | assumption].
  - apply bra_exact; [lia | | assumption].
    rewrite Zpos_iter_xO. reflexivity.
Qed.

Lemma of_Z_holds (n : Z) : 0 <= n -> n < 2 ^ 53 -> holds_integer (of_Z n) n.
Proof.
  intros H0 Hn. unfold of_Z, binary_normalize.
  destruct n as [|p|p]; [now left | | lia]. now apply binary_round_small.
Qed.

Lemma mul_exact (x y : number) (v k : Z) :
  holds_integer x v -> holds_integer y k -> 0 < k -> v * k < 2 ^ 53 ->
  holds_integer (mul x y) (v * k).
Proof.
  intros Hx [[-> ->]|(m' & e' & -> & He' & Hm')] Hk Hvk; [lia|].
  destruct Hx as [[-> ->]|(m & e & -> & He & Hm)].
  - left. split; reflexivity.
  - cbn. apply bra_exact; [lia | | assumption].
    rewrite Pos2Z.inj_mul, Hm, Hm'.
    replace (- (e + e')) with (- e + - e') by lia.
    rewrite Z.pow_add_r by lia. lia.
Qed.

Lemma Math_floor_exact (x : number) (v : Z) :
  holds_integer x v -> v < 2 ^ 53 -> holds_integer (Math_floor x) v.
Proof.
  intros Hx Hv. destruct Hx as [[-> ->]|(m & e & -> & He & Hm)].
  - now left.
  - pose proof (holds_integer_pos m e v He Hm) as Hvpos.
    cbn [Math_floor]. destruct (0 <=? e) eqn:E.
    + right. exists m, e. auto.
    + rewrite Hm, Z.div_mul by (apply Z.pow_nonzero; lia).
      apply of_Z_holds; lia.
Qed.

Lemma div_eucl_1 (a : Z) : Z.div_eucl a 1 = (a, 0).
Proof.
  pose proof (Z.div_1_r a) as Hq. pose proof (Z.mod_1_r a) as Hr.
  unfold Z.div, Z.modulo in *. destruct (Z.div_eucl a 1) as [q r].
  cbn in *. congruence.
Qed.

Lemma of_ratio_integer (n : Z) :
  0 <= n -> n < 2 ^ 53 -> holds_integer (of_ratio n 1) n.
Proof.
  intros H0 Hn. unfold of_ratio. destruct n as [|p|p]; [now left | | lia].
  unfold SFdiv_core_binary. cbn [Zdigits2].
  pose proof (digits2_bound p Hn) as Hd.
  assert (Hf : fexp prec emax (Zpos (digits2_pos p) + 0 - (Zpos (digits2_pos 1) + 0)) <= 0).
  { apply fexp_small. change (digits2_pos 1) with 1%positive. lia. }
  set (f := fexp prec emax (Zpos (digits2_pos p) + 0 - (Zpos (digits2_pos 1) + 0))) in *.
  replace (Z.min f (0 - 0)) with f by lia.
  replace (0 - 0 - f) with (- f) by lia.
  destruct (- f) as [|s|s] eqn:Es; try lia.
  - rewrite div_eucl_1. change (new_location 1 0) with loc_Exact.
    apply bra_exact; [lia | | assumption].
    replace f with 0 by lia. cbn. lia.
  - rewrite div_eucl_1. change (new_location 1 0) with loc_Exact.
    assert (Hsh : IntDef.Z.shiftl (Zpos p) (Zpos s) = Zpos p * 2 ^ Zpos s)
      by (apply (Z.shiftl_mul_pow2 (Zpos p) (Zpos s)); lia).
    assert (H2 : 0 < 2 ^ Zpos s) by (apply Z.pow_pos_nonneg; lia).
    destruct (IntDef.Z.shiftl (Zpos p) (Zpos s)) as [|m|m] eqn:Em; try lia.
    apply bra_exact; [lia | | assumption].
    rewrite Hsh. now rewrite Es.
Qed.

Lemma parseFloat_integer (ds : jsstring) :
  forallb is_digit ds = true -> ds <> [] -> digits_val ds < 2 ^ 53 ->
  holds_integer (parseFloat ds) (digits_val ds).
Proof.
  intros Hd Hne Hv. unfold parseFloat.
  rewrite <- (app_nil_r ds) at 1.
  rewrite (span_app is_digit ds [] Hd I).
  destruct ds as [|c ds]; [congruence|].
  rewrite app_nil_r. change (10 ^ Z.of_nat (List.length (@nil char))) with 1.
  apply of_ratio_integer; [now apply digits_val_nonneg | assumption].
Qed.

Lemma integer_token_digits (tok : jsstring) :
  integer_token tok = true ->
  forallb is_digit (remove_commas tok) = true /\ remove_commas tok <> []
  /\ numeric_run tok = true.
Proof.
  unfold integer_token, numeric_run, remove_commas. intros H.
  apply andb_true_iff in H as [Hall Hex].
  induction tok as [|c tok IH]; cbn in *; [discriminate|].
  apply andb_true_iff in Hall as [Hc Hall].
  assert (Hcls : Instagram.count_class c = true)
    by (revert Hc; clear; class_cases).
  rewrite Hcls. cbn [andb].
  destruct (is_comma c) eqn:Hcomma; cbn [negb orb filter].
  - assert (Hnd : is_digit c = false) by (revert Hcomma; clear; class_cases).
    rewrite Hnd in Hex. cbn in Hex. now apply IH.
  - assert (Hd : is_digit c = true) by (revert Hc Hcomma; clear; class_cases).
    cbn [forallb]. rewrite Hd. cbn [andb]. split; [|split; [discriminate|]].
    + clear IH Hex. induction tok as [|c' tok IH]; cbn in *; [reflexivity|].
      apply andb_true_iff in Hall as [Hc' Hall].
      destruct (is_comma c') eqn:Hcomma'; cbn; [now apply IH|].
      assert (Hd' : is_digit c' = true)
        by (revert Hc' Hcomma'; clear; class_cases).
      now rewrite Hd', IH.
    + clear IH Hex. rewrite andb_true_r.
      eapply forallb_weaken; [|exact Hall].
      intros x Hx. revert Hx. clear. class_cases.
Qed.

Lemma multiplier_of_plain (k : char) (rest : jsstring) :
  is_KMB k = false -> multiplier_of (k :: rest) = 1.
Proof.
  intros Hk. unfold multiplier_of.
  repeat match goal with
    | |- context [match ?x with _ => _ end] => destruct x
    end; try reflexivity; discriminate Hk.
Qed.

Lemma scale_integer (num : number) (n : Z) (rest : jsstring) :
  holds_integer num n ->
  0 <= n ->
  n * multiplier_of rest < 2 ^ 53 ->
  holds_integer (scale num (suffix_of rest)) (n * multiplier_of rest).
Proof.
  intros Hnum Hn Hb. destruct rest as [|k rest].
  - cbn in *. rewrite Z.mul_1_r in *. apply Math_floor_exact; trivial.
  - cbn [suffix_of]. destruct (is_KMB k) eqn:Hk.
    + destruct (KMB_inv k Hk) as [->|[->| ->]]; cbn [scale multiplier_of] in *;
        apply Math_floor_exact; trivial;
        (apply mul_exact; trivial; [apply of_Z_holds | ]; lia).
    + rewrite (multiplier_of_plain k rest Hk) in *.
      cbn [scale]. rewrite Z.mul_1_r in *. apply Math_floor_exact; trivial.
Qed.

(** Whole numbers, with or without thousands separators and suffix, are
    converted exactly as long as the result stays below [2^53]. *)
Lemma parseCount_integer (junk tok rest : jsstring) :
  plain junk = true ->
  integer_token tok = true ->
  tail_ok rest = true ->
  digits_val (remove_commas tok) * multiplier_of rest < 2 ^ 53 ->
  to_Z (Instagram.parseCount (junk ++ tok ++ rest))
  = Some (digits_val (remove_commas tok) * multiplier_of rest)
  /\ to_Z (TikTok.parseCount (junk ++ tok ++ rest))
     = Some (digits_val (remove_commas tok) * multiplier_of rest).
Proof.
  intros Hj Htok Ht Hb.
  destruct (integer_token_digits tok Htok) as (Hd & Hne & Hrun).
  pose proof (digits_val_nonneg _ Hd) as Hn.
  assert (Hm : 1 <= multiplier_of rest).
  { unfold multiplier_of.
    repeat match goal with
      | |- context [match ?x with _ => _ end] => destruct x
      end; lia. }
  rewrite instagram_parseCount_run, tiktok_parseCount_run by assumption.
  assert (H : holds_integer
                (scale (parseFloat (remove_commas tok)) (suffix_of rest))
                (digits_val (remove_commas tok) * multiplier_of rest)).
  { apply scale_integer; trivial. apply parseFloat_integer; trivial. nia. }
  apply holds_integer_to_Z in H. now split.
Qed.

(** ** What each helper looks at *)

Lemma tiktok_parseCount_cleaned (text : jsstring) :
  TikTok.parseCount text
  = match regex_match TikTok.count_class (filter TikTok.keep_class text) with
    | None => of_Z 0
    | Some (m1, m2) => scale (parseFloat m1) m2
    end.
Proof. destruct text; reflexivity. Qed.

Lemma tiktok_parseCount_kept (a b : jsstring) :
  filter TikTok.keep_class a = filter TikTok.keep_class b ->
  TikTok.parseCount a = TikTok.parseCount b.
Proof.
  intros H. now rewrite !tiktok_parseCount_cleaned, H.
Qed.

Lemma instagram_parseCount_first_run (junk run more : jsstring) (k : char) :
  forallb (fun c => negb (Instagram.count_class c)) junk = true ->
  forallb Instagram.count_class run = true ->
  run <> [] ->
  Instagram.count_class k = false ->
  Instagram.parseCount (junk ++ run ++ k :: more)
  = Instagram.parseCount (run ++ [k]).
Proof.
  intros Hj Hr Hne Hk. unfold Instagram.parseCount.
  destruct (junk ++ run ++ k :: more) as [|c0 t0] eqn:E0.
  { destruct junk; [destruct run; [congruence | discriminate] | discriminate]. }
  destruct (run ++ [k]) as [|c1 t1] eqn:E1.
  { destruct run; [congruence | discriminate]. }
  rewrite <- E0, <- E1.
  rewrite regex_match_skip by assumption.
  rewrite (regex_match_run _ run (k :: more)), (regex_match_run _ run [k]);
    auto.
Qed.

(** ** [trim] and [includes] *)

Lemma drop_while_split (p : char -> bool) (s : jsstring) :
  exists pre, s = pre ++ drop_while p s /\ forallb p pre = true
              /\ match drop_while p s with
                 | [] => True
                 | c :: _ => p c = false
                 end.
Proof.
  induction s as [|c s (pre & Hs & Hp & Hh)]; cbn.
  - now exists [].
  - destruct (p c) eqn:Hc.
    + exists (c :: pre). cbn. rewrite Hc, Hp. repeat split; auto.
      now f_equal.
    + exists []. repeat split; auto.
Qed.

Lemma forallb_rev (p : char -> bool) (s : jsstring) :
  forallb p s = true -> forallb p (rev s) = true.
Proof.
  rewrite !forallb_forall. intros H x Hx. apply H. now apply in_rev.
Qed.

Lemma trim_spec (s : jsstring) :
  is_trimmed (trim s) = true
  /\ exists a b, s = a ++ trim s ++ b
                 /\ forallb is_space a = true /\ forallb is_space b = true.
Proof.
  unfold trim, is_trimmed.
  destruct (drop_while_split is_space s) as (a & Hs & Ha & Hh).
  set (t := drop_while is_space s) in *.
  destruct (drop_while_split is_space (rev t)) as (pre & Ht & Hpre & Hu).
  set (u := drop_while is_space (rev t)) in *.
  assert (Ht' : t = rev u ++ rev pre).
  { rewrite <- (rev_involutive t), Ht, rev_app_distr. reflexivity. }
  split.
  - rewrite rev_involutive. apply andb_true_iff. split.
    + destruct (rev u) as [|c r] eqn:Er; [reflexivity|].
      rewrite Ht' in Hh. cbn in Hh. now rewrite Hh.
    + destruct u as [|c r]; [reflexivity|]. now rewrite Hu.
  - exists a, (rev pre). split; [|split; [assumption | now apply forallb_rev]].
    now rewrite <- Ht'.
Qed.

Lemma starts_with_spec (pre s : jsstring) :
  starts_with pre s = true <-> exists b, s = pre ++ b.
Proof.
  revert s. induction pre as [|a pre IH]; intros s; cbn.
  - split; [now exists s | reflexivity].
  - destruct s as [|c s].
    + split; [discriminate | now intros [b Hb]].
    + rewrite andb_true_iff, IH, N.eqb_eq. split.
      * intros [-> [b ->]]. now exists b.
      * intros [b Hb]. inversion Hb; subst. split; [reflexivity | now exists b].
Qed.

Lemma includes_spec (sub s : jsstring) :
  includes sub s = true <-> exists a b, s = a ++ sub ++ b.
Proof.
  induction s as [|c s IH]; cbn [includes].
  - rewrite orb_false_r, starts_with_spec. split.
    + intros [b Hb]. now exists [], b.
    + intros (a & b & H). destruct a; [now exists b | discriminate].
  - rewrite orb_true_iff, starts_with_spec, IH. split.
    + intros [[b Hb]|(a & b & Hab)].
      * now exists [], b.
      * exists (c :: a), b. cbn. now f_equal.
    + intros (a & b & Hab). destruct a as [|x a].
      * left. now exists b.
      * right. cbn in Hab. inversion Hab; subst. now exists a, b.
Qed.

(** * Further properties of the two scrapers *)

(** ** Job execution *)

(** X1: whenever either job function returns a record, that record is the
    one the extractor produced, and exactly one payload was posted: the
    completed payload carrying that same record. *)
Theorem X1_returned_record_was_posted :
  (forall (w : ig_world) (j : job) (r : InstagramPage.data),
      snd (scrape_instagram_profile w j) = Ok r ->
      r = InstagramPage.extract (w_dom w) (w_now w)
      /\ posted (fst (scrape_instagram_profile w j))
         = [(job_webhook_url j,
             {| p_jobId := job_id j; p_status := "completed";
                p_platform := "Instagram"; p_body := PData r |})])
  /\ (forall (w : tt_world) (j : job) (r : TikTokPage.data),
      snd (scrape_tiktok_profile w j) = Ok r ->
      r = TikTokPage.extract (w_dom w) (w_now w)
      /\ posted (fst (scrape_tiktok_profile w j))
         = [(job_webhook_url j,
             {| p_jobId := job_id j; p_status := "completed";
                p_platform := "TikTok"; p_body := PData r |})]).
Proof.
  split; intros w j r Hr.
  - apply (returned_record_was_posted "Instagram" instagram_url "header" InstagramPage.extract); exact Hr.
  - apply (returned_record_was_posted "TikTok" tiktok_url tiktok_ready_selector TikTokPage.extract); exact Hr.
Qed.

Lemma X1_returned_record_was_posted_witness :
  posted (fst (scrape_tiktok_profile (Fixtures.calm Fixtures.tiktok_page)
                 Fixtures.nike))
  = [("https://httpbin.org/post"%string,
      {| p_jobId := "test-123"; p_status := "completed";
         p_platform := "TikTok";
         p_body := PData (TikTokPage.extract Fixtures.tiktok_page
                            Fixtures.the_clock) |})].
Proof.
  exact (proj2 (proj2 X1_returned_record_was_posted
                  (Fixtures.calm Fixtures.tiktok_page) Fixtures.nike
                  _ eq_refl)).
Defined.

(** X2: in every execution the statuses posted are, in order, nothing,
    "completed", "failed", or "completed" then "failed": never two of a
    kind, never "completed" after "failed". *)
Theorem X2_statuses_in_order :
  (forall (w : ig_world) (j : job),
      let t := fst (scrape_instagram_profile w j) in
      statuses t = [] \/ statuses t = ["completed"%string]
      \/ statuses t = ["failed"%string]
      \/ statuses t = ["completed"%string; "failed"%string])
  /\ (forall (w : tt_world) (j : job),
      let t := fst (scrape_tiktok_profile w j) in
      statuses t = [] \/ statuses t = ["completed"%string]
      \/ statuses t = ["failed"%string]
      \/ statuses t = ["completed"%string; "failed"%string]).
Proof.
  split; intros w j.
  - apply (statuses_in_order "Instagram" instagram_url "header" InstagramPage.extract).
  - apply (statuses_in_order "TikTok" tiktok_url tiktok_ready_selector TikTokPage.extract).
Qed.

(** X3: every payload either job function posts goes to the job's
    [webhook_url], carries the job's id and the scraper's platform name,
    and is either a completed payload with data or a failed payload with an
    error message. *)
Theorem X3_posts_well_formed :
  (forall (w : ig_world) (j : job),
      Forall (well_formed_post "Instagram" j)
        (posted (fst (scrape_instagram_profile w j))))
  /\ (forall (w : tt_world) (j : job),
      Forall (well_formed_post "TikTok" j)
        (posted (fst (scrape_tiktok_profile w j)))).
Proof.
  split; intros w j.
  - apply (posts_well_formed "Instagram" instagram_url "header" InstagramPage.extract).
  - apply (posts_well_formed "TikTok" tiktok_url tiktok_ready_selector TikTokPage.extract).
Qed.

(** X4: the session calls are issued in program order, each at most once,
    and stop at the first one that raises: Playwright start, launch, new
    context, new page, [goto] of the profile URL (30000 ms), wait for the
    readiness selector (15000 ms), evaluate.  Nothing is retried and no
    later call is made after a fault. *)
Theorem X4_setup_calls_prefix :
  (forall (w : ig_world) (j : job),
      setup_calls (fst (scrape_instagram_profile w j))
      = firstn (setup_reached w)
          [CallPlaywrightStart; CallLaunch; CallNewContext; CallNewPage;
           CallGoto ("https://www.instagram.com/" ++ job_username j ++ "/")
             30000;
           CallWaitForSelector "header" 15000;
           CallEvaluate])
  /\ (forall (w : tt_world) (j : job),
      setup_calls (fst (scrape_tiktok_profile w j))
      = firstn (setup_reached w)
          [CallPlaywrightStart; CallLaunch; CallNewContext; CallNewPage;
           CallGoto ("https://www.tiktok.com/@" ++ job_username j) 30000;
           CallWaitForSelector tiktok_ready_selector 15000;
           CallEvaluate]).
Proof.
  split; intros w j.
  - apply (setup_calls_prefix "Instagram" instagram_url "header" InstagramPage.extract).
  - apply (setup_calls_prefix "TikTok" tiktok_url tiktok_ready_selector TikTokPage.extract).
Qed.

(** X5: a fault of the [try] block that does not derive from [Exception]
    (a cancellation) is not reported: no failure payload is posted, and
    with a teardown that returns the fault itself reaches the invoker. *)
Theorem X5_uncaught_fault_not_reported (j : job) (e : exn) :
  (forall w : ig_world,
      w_playwright_start w = None ->
      snd (attempt "Instagram" instagram_url "header" InstagramPage.extract
             w j initial) = Raised e ->
      exn_is_Exception e = false ->
      posted (fst (scrape_instagram_profile w j))
      = posted (trace (fst (attempt "Instagram" instagram_url "header"
                              InstagramPage.extract w j initial)))
      /\ (teardown_ok w = true ->
          snd (scrape_instagram_profile w j) = Raised e))
  /\ (forall w : tt_world,
      w_playwright_start w = None ->
      snd (attempt "TikTok" tiktok_url tiktok_ready_selector
             TikTokPage.extract w j initial) = Raised e ->
      exn_is_Exception e = false ->
      posted (fst (scrape_tiktok_profile w j))
      = posted (trace (fst (attempt "TikTok" tiktok_url tiktok_ready_selector
                              TikTokPage.extract w j initial)))
      /\ (teardown_ok w = true ->
          snd (scrape_tiktok_profile w j) = Raised e)).
Proof.
  split; intros w Hs Ha He.
  - apply (uncaught_fault "Instagram" instagram_url "header" InstagramPage.extract); assumption.
  - apply (uncaught_fault "TikTok" tiktok_url tiktok_ready_selector TikTokPage.extract); assumption.
Qed.

Lemma X5_uncaught_fault_not_reported_witness :
  posted (fst (scrape_instagram_profile
                 (MoreFixtures.cancelled_while_waiting Fixtures.instagram_page)
                 Fixtures.nike)) = []
  /\ snd (scrape_instagram_profile
            (MoreFixtures.cancelled_while_waiting Fixtures.instagram_page)
            Fixtures.nike) = Raised MoreFixtures.cancelled.
Proof.
  destruct (proj1 (X5_uncaught_fault_not_reported
                     Fixtures.nike MoreFixtures.cancelled)
              (MoreFixtures.cancelled_while_waiting Fixtures.instagram_page)
              eq_refl eq_refl eq_refl) as [Hp Hr].
  split; [exact Hp | exact (Hr eq_refl)].
Defined.

(** X6: when Playwright itself cannot be started, nothing else happens: no
    browser is launched, no webhook is posted, and the start error is what
    the invoker gets. *)
Theorem X6_playwright_start_failure (j : job) (e : exn) :
  (forall w : ig_world,
      w_playwright_start w = Some e ->
      scrape_instagram_profile w j = ([CallPlaywrightStart], Raised e))
  /\ (forall w : tt_world,
      w_playwright_start w = Some e ->
      scrape_tiktok_profile w j = ([CallPlaywrightStart], Raised e)).
Proof.
  split; intros w Hs.
  - apply (playwright_start_failure "Instagram" instagram_url "header" InstagramPage.extract); assumption.
  - apply (playwright_start_failure "TikTok" tiktok_url tiktok_ready_selector TikTokPage.extract); assumption.
Qed.

Lemma X6_playwright_start_failure_witness :
  scrape_tiktok_profile
    (MoreFixtures.playwright_missing Fixtures.tiktok_page) Fixtures.nike
  = ([CallPlaywrightStart], Raised MoreFixtures.target_closed).
Proof.
  apply (proj2 (X6_playwright_start_failure
                  Fixtures.nike MoreFixtures.target_closed)
           (MoreFixtures.playwright_missing Fixtures.tiktok_page)).
  reflexivity.
Defined.

(** X7: an exception raised while tearing down replaces the outcome of the
    job: if the exit of [async with async_playwright()] raises, or if a
    browser was launched and [browser.close()] raises, the invoker gets
    that exception, also when the completed payload was already posted. *)
Theorem X7_teardown_fault_is_the_outcome (j : job) (e : exn) :
  (forall w : ig_world,
      w_playwright_start w = None ->
      (w_playwright_stop w = Some e ->
       snd (scrape_instagram_profile w j) = Raised e)
      /\ (w_launch w = None -> w_close w = Some e ->
          w_playwright_stop w = None ->
          snd (scrape_instagram_profile w j) = Raised e))
  /\ (forall w : tt_world,
      w_playwright_start w = None ->
      (w_playwright_stop w = Some e ->
       snd (scrape_tiktok_profile w j) = Raised e)
      /\ (w_launch w = None -> w_close w = Some e ->
          w_playwright_stop w = None ->
          snd (scrape_tiktok_profile w j) = Raised e)).
Proof.
  split; intros w Hs.
  - apply (teardown_fault_is_the_outcome "Instagram" instagram_url "header" InstagramPage.extract); assumption.
  - apply (teardown_fault_is_the_outcome "TikTok" tiktok_url tiktok_ready_selector TikTokPage.extract); assumption.
Qed.

Lemma X7_teardown_fault_is_the_outcome_witness :
  statuses (fst (scrape_instagram_profile
                   (MoreFixtures.close_fails Fixtures.instagram_page)
                   Fixtures.nike)) = ["completed"%string]
  /\ snd (scrape_instagram_profile
            (MoreFixtures.close_fails Fixtures.instagram_page)
            Fixtures.nike) = Raised MoreFixtures.target_closed.
Proof.
  split; [reflexivity|].
  apply (proj2 (proj1 (X7_teardown_fault_is_the_outcome
                         Fixtures.nike MoreFixtures.target_closed)
                  (MoreFixtures.close_fails Fixtures.instagram_page)
                  eq_refl)); reflexivity.
Defined.

(** X8: once Playwright has started, the execution always ends with the
    teardown: [browser.close()] (when a browser was launched) and then the
    Playwright exit are the last calls, so every webhook POST happens
    while the browser is still open. *)
Theorem X8_teardown_comes_last (j : job) :
  (forall w : ig_world,
      w_playwright_start w = None ->
      exists pre,
        fst (scrape_instagram_profile w j)
        = pre ++ (if no_fault (w_launch w)
                  then [CallClose; CallPlaywrightStop]
                  else [CallPlaywrightStop])
        /\ close_calls pre = 0%nat)
  /\ (forall w : tt_world,
      w_playwright_start w = None ->
      exists pre,
        fst (scrape_tiktok_profile w j)
        = pre ++ (if no_fault (w_launch w)
                  then [CallClose; CallPlaywrightStop]
                  else [CallPlaywrightStop])
        /\ close_calls pre = 0%nat).
Proof.
  split; intros w Hs.
  - apply (teardown_comes_last "Instagram" instagram_url "header" InstagramPage.extract); assumption.
  - apply (teardown_comes_last "TikTok" tiktok_url tiktok_ready_selector TikTokPage.extract); assumption.
Qed.

Lemma X8_teardown_comes_last_witness :
  exists pre,
    fst (scrape_instagram_profile
           (Fixtures.success_post_fails Fixtures.instagram_page)
           Fixtures.nike)
    = pre ++ [CallClose; CallPlaywrightStop]
    /\ webhook_calls pre = 2%nat.
Proof.
  destruct (proj1 (X8_teardown_comes_last Fixtures.nike)
              (Fixtures.success_post_fails Fixtures.instagram_page)
              eq_refl) as [pre [Hpre _]].
  exists pre. split; [exact Hpre|].
  cbn in Hpre.
  apply (f_equal (fun l => removelast (removelast l))) in Hpre.
  rewrite !removelast_app, app_nil_r in Hpre by discriminate.
  cbn in Hpre. subst pre. reflexivity.
Defined.

(** ** The count normalizer *)

(** X9: for every input, the result of either helper is [NaN],
    [+Infinity] or a non-negative integer: never negative and never
    fractional.  The same then holds for every count the extractors put in
    a record. *)
Theorem X9_counts_are_count_like :
  (forall text : jsstring,
      count_like (Instagram.parseCount text)
      /\ count_like (TikTok.parseCount text))
  /\ (forall (d : InstagramPage.dom) (now : jsstring),
      count_like (InstagramPage.posts (InstagramPage.extract d now))
      /\ count_like (InstagramPage.followers (InstagramPage.extract d now))
      /\ count_like (InstagramPage.following (InstagramPage.extract d now)))
  /\ (forall (d : TikTokPage.dom) (now : jsstring),
      count_like (TikTokPage.followers (TikTokPage.extract d now))
      /\ count_like (TikTokPage.following (TikTokPage.extract d now))
      /\ count_like (TikTokPage.likes (TikTokPage.extract d now))
      /\ Forall (fun v => count_like (TikTokPage.views v))
           (TikTokPage.recentVideos (TikTokPage.extract d now))).
Proof.
  split; [exact parseCount_count_like|]. split.
  - intros d now. cbn. repeat split; apply parseCount_count_like.
  - intros d now.
    cbv beta iota zeta delta
      [TikTokPage.extract TikTokPage.followers TikTokPage.following
       TikTokPage.likes TikTokPage.recentVideos].
    repeat split; try apply parseCount_count_like.
    apply Forall_map, Forall_forall. intros item _.
    apply parseCount_count_like.
Qed.

(** X10: either helper returns [NaN] exactly when its pattern matches
    and the captured run (with its commas removed, for Instagram) does not
    start with a digit or with ['.'] and a digit. *)
Theorem X10_parseCount_nan_iff (text : jsstring) :
  (Instagram.parseCount text = NaN <->
   exists m1 m2,
     regex_match Instagram.count_class text = Some (m1, m2)
     /\ has_literal (remove_commas m1) = false)
  /\ (TikTok.parseCount text = NaN <->
      exists m1 m2,
        regex_match TikTok.count_class (filter TikTok.keep_class text)
        = Some (m1, m2)
        /\ has_literal m1 = false).
Proof. apply parseCount_nan. Qed.

(** X11: a whole number, with or without thousands separators, inside
    text without digits, ['.'], [','], [K], [M], [B] and followed by
    nothing, a suffix letter or such text, is converted exactly by both
    helpers: the result is its decimal value times 1, 1000, 1000000 or
    1000000000, as long as that product is below [2^53]. *)
Theorem X11_parseCount_integer (junk tok rest : jsstring) :
  plain junk = true ->
  integer_token tok = true ->
  tail_ok rest = true ->
  digits_val (remove_commas tok) * multiplier_of rest < 2 ^ 53 ->
  to_Z (Instagram.parseCount (junk ++ tok ++ rest))
  = Some (digits_val (remove_commas tok) * multiplier_of rest)
  /\ to_Z (TikTok.parseCount (junk ++ tok ++ rest))
     = Some (digits_val (remove_commas tok) * multiplier_of rest).
Proof. apply parseCount_integer. Qed.

Lemma X11_parseCount_integer_witness :
  to_Z (Instagram.parseCount (js "10M followers")) = Some 10000000
  /\ to_Z (TikTok.parseCount (js "Likes: 1,234,567")) = Some 1234567.
Proof.
  split.
  - apply (proj1 (X11_parseCount_integer [] (js "10") (js "M followers")
                    eq_refl eq_refl eq_refl eq_refl)).
  - apply (proj2 (X11_parseCount_integer (js "Likes: ") (js "1,234,567") []
                    eq_refl eq_refl eq_refl eq_refl)).
Defined.

(** X12: the TikTok helper depends only on the characters it keeps
    (digits, ['.'], [K], [M], [B]): two texts that agree once everything
    else is deleted give the same result, so blanks, commas and other
    letters anywhere in the text, also inside the number, change nothing. *)
Theorem X12_tiktok_parseCount_kept (a b : jsstring) :
  filter TikTok.keep_class a = filter TikTok.keep_class b ->
  TikTok.parseCount a = TikTok.parseCount b.
Proof. apply tiktok_parseCount_kept. Qed.

Lemma X12_tiktok_parseCount_kept_witness :
  TikTok.parseCount (js "1 2 views, 3K") = TikTok.parseCount (js "123K").
Proof.
  apply (X12_tiktok_parseCount_kept (js "1 2 views, 3K") (js "123K")).
  reflexivity.
Defined.

(** X13: the Instagram helper reads the first run of digits, commas and
    dots and the one character after it, and nothing else: text before the
    run and everything after that character are ignored. *)
Theorem X13_instagram_parseCount_first_run
    (junk run more : jsstring) (k : char) :
  forallb (fun c => negb (Instagram.count_class c)) junk = true ->
  forallb Instagram.count_class run = true ->
  run <> [] ->
  Instagram.count_class k = false ->
  Instagram.parseCount (junk ++ run ++ k :: more)
  = Instagram.parseCount (run ++ [k]).
Proof. apply instagram_parseCount_first_run. Qed.

Lemma X13_instagram_parseCount_first_run_witness :
  Instagram.parseCount (js "KB: 12 of 3,400M") = Instagram.parseCount (js "12 ").
Proof.
  apply (X13_instagram_parseCount_first_run
           (js "KB: ") (js "12") (js "of 3,400M") 32%N);
    [reflexivity | reflexivity | discriminate | reflexivity].
Defined.

(** ** The extractors *)

Lemma trimmed_text_from (node : option jsstring) :
  trimmed_from node (InstagramPage.trimmed_text node)
  /\ trimmed_from node (TikTokPage.trimmed_text node).
Proof.
  unfold trimmed_from, InstagramPage.trimmed_text, TikTokPage.trimmed_text.
  destruct node as [t|]; cbn; [|repeat split; reflexivity].
  rewrite or_else_nil. split; apply trim_spec.
Qed.

(** X14: the text fields of both records ([username], [bio], and
    [fullName] for Instagram) are the text of their node with the white
    space around it removed and nothing else changed; they never begin or
    end with white space, and are empty when the node is absent. *)
Theorem X14_text_fields_trimmed :
  (forall (d : InstagramPage.dom) (now : jsstring),
      trimmed_from (InstagramPage.header_h2 d)
        (InstagramPage.username (InstagramPage.extract d now))
      /\ trimmed_from (InstagramPage.header_section_div_span d)
           (InstagramPage.bio (InstagramPage.extract d now))
      /\ trimmed_from (InstagramPage.header_section_div_div_span d)
           (InstagramPage.fullName (InstagramPage.extract d now)))
  /\ (forall (d : TikTokPage.dom) (now : jsstring),
      trimmed_from (TikTokPage.user_title d)
        (TikTokPage.username (TikTokPage.extract d now))
      /\ trimmed_from (TikTokPage.user_bio d)
           (TikTokPage.bio (TikTokPage.extract d now))).
Proof.
  split; intros d now;
    cbv beta iota zeta delta
      [InstagramPage.extract InstagramPage.username InstagramPage.bio
       InstagramPage.fullName TikTokPage.extract TikTokPage.username
       TikTokPage.bio];
    repeat split; apply trimmed_text_from.
Qed.

(** X15: the Instagram record is marked private exactly when the first
    [h2] of the document (the one [querySelector('h2')] returns) has a text
    that contains "Private"; later [h2] elements are not looked at. *)
Theorem X15_isPrivate_iff (d : InstagramPage.dom) (now : jsstring) :
  InstagramPage.isPrivate (InstagramPage.extract d now) = true
  <-> exists t a b,
        InstagramPage.first_h2 d = Some t /\ t = a ++ js "Private" ++ b.
Proof.
  cbv beta iota zeta delta [InstagramPage.extract InstagramPage.isPrivate].
  destruct (InstagramPage.first_h2 d) as [t|].
  - rewrite includes_spec. split.
    + intros (a & b & H). now exists t, a, b.
    + intros (t' & a & b & Ht & H). inversion Ht; subst. now exists a, b.
  - split; [discriminate | now intros (t & a & b & H & _)].
Qed.

(** * The helpers against the reference algorithm *)

(** ** The TikTok helper against the reference algorithm *)








(** ** The Instagram helper against the reference algorithm *)








